(** * Shark marker reconciliation (frontend Map component)

    A shallow embedding of the [MapGL] React component: the WebSocket message
    handler that reconciles each decoded batch of shark records against the
    markers tracked in [sharkMarkersRef], the zoom-dependent size function
    [getMarkerSize], and the resize pass [updateAllMarkerSizes].

    The repository holds two revisions of the component. The development
    follows the one with [getMarkerSize] and the [zoomend] listener; the
    other creates every marker at the fixed size 10, with another icon, and
    never resizes; its message handler is otherwise the same.

    Modelling conventions.
    - A JavaScript number is a real number or NaN in the model of the
      handlers; rounding of IEEE doubles and the infinities are not
      represented there, and the properties stated on it say which value of
      the code's own expressions is written where. What depends on the
      rounding is stated on [Double], the callback and the size function on
      binary64 numbers.
    - A JavaScript value is the result of [JSON.parse] (plus [undefined],
      which property reads produce). An object is the list of its own
      properties, each key once.
    - The handlers mutate the refs of the component; here they are functions
      on an explicit [State], and a thrown exception is an explicit outcome.
    - The maptalks objects ([Marker], [VectorLayer], the map) are the store
      of what the component last wrote to them, and their methods are taken
      not to throw. The library refuses coordinates that are not numbers
      (it throws before it creates or moves the marker), so what is stated
      about a record outside [SharkData] is stated for numeric coordinates. *)

From Stdlib Require Import Reals Lra Machin.
From Stdlib Require Import PrimFloat FloatOps SpecFloat.
From stdpp Require Import gmap strings list fin_maps.

(** ** Numbers *)

Inductive number : Type :=
| NaN
| Num (r : R).

Definition number_lift2 (f : R → R → R) (a b : number) : number :=
  match a, b with
  | Num r1, Num r2 => Num (f r1 r2)
  | _, _ => NaN
  end.

(** [a * b], [a / b] and [a - b] on numbers. The only divisor in the
    component is [Math.PI]. *)
Definition js_mul : number → number → number := number_lift2 Rmult.
Definition js_div : number → number → number := number_lift2 Rdiv.
Definition js_sub : number → number → number := number_lift2 Rminus.

Definition Math_PI : number := Num PI.

(** [Math.pow(base, exponent)]; the component only calls it with the
    positive base 1.3, where it is [exp (exponent * ln base)]. *)
Definition Math_pow : number → number → number := number_lift2 Rpower.

(** Truthiness of a number: [0] and [NaN] are falsy. *)
Definition number_truthy (n : number) : bool :=
  match n with
  | NaN => false
  | Num r => if Req_dec_T r 0 then false else true
  end.

(** ** Values and exceptions *)

#[local] Set Warnings "-register-all,-clear-no-such-hyp".

Inductive jsval : Type :=
| JUndefined
| JNull
| JBool (b : bool)
| JNumber (n : number)
| JString (s : string)
| JArray (elems : list jsval)
| JObject (props : list (string * jsval)).

Inductive exn : Type :=
| SyntaxError
| TypeError.

Inductive result (A : Type) : Type :=
| Ok (a : A)
| Throw (e : exn).
Arguments Ok {A} a.
Arguments Throw {A} e.

(** Own property of an object literal, [undefined] when absent. *)
Fixpoint own_property (props : list (string * jsval)) (key : string) : jsval :=
  match props with
  | [] => JUndefined
  | (k, v) :: rest => if String.eqb k key then v else own_property rest key
  end.

(** [v.key] (and the destructuring [const { key } = v]) for the property
    names the component reads: [sharks], [position], [rotation_rad], [x] and
    [y]. Reading a property of [null] or [undefined] throws a [TypeError];
    booleans, numbers, strings and arrays have no property of these names. *)
Definition get (v : jsval) (key : string) : result jsval :=
  match v with
  | JUndefined | JNull => Throw TypeError
  | JObject props => Ok (own_property props key)
  | _ => Ok JUndefined
  end.

(** Truthiness of a value. *)
Definition truthy (v : jsval) : bool :=
  match v with
  | JUndefined | JNull => false
  | JBool b => b
  | JNumber n => number_truthy n
  | JString s => negb (String.eqb s "")
  | JArray _ | JObject _ => true
  end.

Definition Array_isArray (v : jsval) : bool :=
  match v with
  | JArray _ => true
  | _ => false
  end.

(** ** The state the handlers work on *)

(** A maptalks [Marker]: its coordinates and the entries of its symbol, as
    last written by the component. The coordinates are the pair [[x, y]] the
    component passes on, whatever the values are. *)
Record Marker : Type := {
  coordinates : jsval * jsval;
  markerFile : string;
  markerWidth : number;
  markerHeight : number;
  markerRotation : number;
}.

(** The lines the component logs. [LogConnected] is the line of
    [ws.onopen], which names port 25555; [LogConnected2555] is the line of
    the earlier revision's [ws.onopen], which names port 2555. *)
Inductive log_entry : Type :=
| LogConnected
| LogConnected2555
| LogParseFailure (err : exn)
| LogDisconnected.

(** [mapRef] is the zoom level [mapRef.current.getZoom()] reports, [None]
    while the handle is null. [vectorLayerRef] lists the geometries added to
    the layer; a marker object is referred to by the key it is registered
    under in [sharkMarkersRef], which is the only other reference to it. *)
Record State : Type := {
  mapRef : option number;
  vectorLayerRef : option (list nat);
  sharkMarkersRef : gmap nat Marker;
  console : list log_entry;
}.

Definition set_mapRef (z : option number) (st : State) : State :=
  {| mapRef := z; vectorLayerRef := vectorLayerRef st;
     sharkMarkersRef := sharkMarkersRef st; console := console st |}.

Definition set_vectorLayerRef (l : option (list nat)) (st : State) : State :=
  {| mapRef := mapRef st; vectorLayerRef := l;
     sharkMarkersRef := sharkMarkersRef st; console := console st |}.

Definition set_sharkMarkersRef (ms : gmap nat Marker) (st : State) : State :=
  {| mapRef := mapRef st; vectorLayerRef := vectorLayerRef st;
     sharkMarkersRef := ms; console := console st |}.

Definition set_console (c : list log_entry) (st : State) : State :=
  {| mapRef := mapRef st; vectorLayerRef := vectorLayerRef st;
     sharkMarkersRef := sharkMarkersRef st; console := c |}.

(** The component props that matter here: [zoom?: number], default 2. *)
Record MapGLProps : Type := { zoom_prop : option number }.

Definition zoom (props : MapGLProps) : number :=
  match zoom_prop props with
  | Some z => z
  | None => Num 2
  end.

(** [<MapGL />] in [App]: no prop is passed. *)
Definition App_props : MapGLProps := {| zoom_prop := None |}.

(** State after the effect ran and before any event: the map and the layer
    exist, the map is at the [zoom] prop, nothing is tracked. *)
Definition mounted (props : MapGLProps) : State :=
  {| mapRef := Some (zoom props); vectorLayerRef := Some [];
     sharkMarkersRef := ∅; console := [] |}.

(** ** Computations that mutate the state and may throw *)

Definition M (A : Type) : Type := State → State * result A.

Definition ret {A : Type} (a : A) : M A := λ st, (st, Ok a).

Definition bind {A B : Type} (m : M A) (k : A → M B) : M B :=
  λ st, match m st with
        | (st', Ok a) => k a st'
        | (st', Throw e) => (st', Throw e)
        end.

Definition lift {A : Type} (r : result A) : M A := λ st, (st, r).

Definition modify (f : State → State) : M unit := λ st, (f st, Ok tt).

Definition gets {A : Type} (f : State → A) : M A := λ st, (st, Ok (f st)).

Definition try_catch (body : M unit) (handler : exn → M unit) : M unit :=
  λ st, match body st with
        | (st', Ok tt) => (st', Ok tt)
        | (st', Throw e) => handler e st'
        end.

Declare Scope js_scope.
Delimit Scope js_scope with js.
Notation "'let*' a ':=' m 'in' k" := (bind m (λ a, k))
  (at level 10, a name, m at level 100, k at level 200) : js_scope.
Notation "m ;; k" := (bind m (λ _, k))
  (at level 100, right associativity) : js_scope.
Open Scope js_scope.

(** [elems.forEach(callback)], started at index [idx]. *)
Fixpoint forEach_from (idx : nat) (elems : list jsval) (callback : jsval → nat → M unit) : M unit :=
  match elems with
  | [] => ret tt
  | v :: rest => callback v idx ;; forEach_from (S idx) rest callback
  end.

Definition forEach : list jsval → (jsval → nat → M unit) → M unit := forEach_from 0.

(** ** The size function and the resize pass *)

(** [getMarkerSize]: [baseSize * Math.pow(1.3, zoomLevel - 2)]. *)
Definition getMarkerSize (zoomLevel : number) : number :=
  let baseSize := Num 10 in
  let scaleFactor := Math_pow (Num 1.3) (js_sub zoomLevel (Num 2)) in
  js_mul baseSize scaleFactor.

(** [marker.updateSymbol({ markerWidth: size, markerHeight: size })]. *)
Definition updateSymbol_size (size : number) (m : Marker) : Marker :=
  {| coordinates := coordinates m; markerFile := markerFile m;
     markerWidth := size; markerHeight := size;
     markerRotation := markerRotation m |}.

(** [updateAllMarkerSizes]: nothing without a map, else every tracked marker
    gets the size of the current zoom. *)
Definition updateAllMarkerSizes : M unit :=
  let* map := gets mapRef in
  match map with
  | None => ret tt
  | Some currentZoom =>
      let size := getMarkerSize currentZoom in
      modify (λ st, set_sharkMarkersRef (updateSymbol_size size <$> sharkMarkersRef st) st)
  end.

(** ** The message handler *)

(** [marker.setCoordinates([x, y])]. *)
Definition setCoordinates (c : jsval * jsval) (m : Marker) : Marker :=
  {| coordinates := c; markerFile := markerFile m;
     markerWidth := markerWidth m; markerHeight := markerHeight m;
     markerRotation := markerRotation m |}.

(** [marker.updateSymbol({ markerRotation: deg })]. *)
Definition updateSymbol_rotation (deg : number) (m : Marker) : Marker :=
  {| coordinates := coordinates m; markerFile := markerFile m;
     markerWidth := markerWidth m; markerHeight := markerHeight m;
     markerRotation := deg |}.

(** [new Marker([x, y], { symbol: { markerFile, markerWidth: size,
    markerHeight: size, markerRotation: deg } })]. *)
Definition new_Marker (c : jsval * jsval) (size deg : number) : Marker :=
  {| coordinates := c;
     markerFile := "https://cdn-icons-png.flaticon.com/512/9339/9339269.png";
     markerWidth := size; markerHeight := size;
     markerRotation := deg |}.

(** A method call on the marker object [sharkMarkersRef.current[idx]]. *)
Definition on_marker (idx : nat) (f : Marker → Marker) : M unit :=
  modify (λ st, set_sharkMarkersRef (alter f idx (sharkMarkersRef st)) st).

(** [sharkMarkersRef.current[idx] = marker]. *)
Definition register (idx : nat) (marker : Marker) : M unit :=
  modify (λ st, set_sharkMarkersRef (<[idx := marker]> (sharkMarkersRef st)) st).

(** [vectorLayerRef.current?.addGeometry(marker)], for the marker just
    registered under [idx]. *)
Definition addGeometry (idx : nat) : M unit :=
  modify (λ st, set_vectorLayerRef ((λ l, l ++ [idx]) <$> vectorLayerRef st) st).

(** [console.error("... Failed to parse WS message:", err)]. *)
Definition console_error (err : exn) : M unit :=
  modify (λ st, set_console (console st ++ [LogParseFailure err]) st).

Definition console_log (entry : log_entry) : M unit :=
  modify (λ st, set_console (console st ++ [entry]) st).

(** [mapRef.current?.getZoom() || zoom]. *)
Definition getZoom_or (map : option number) (fallback : number) : number :=
  match map with
  | None => fallback
  | Some z => if number_truthy z then z else fallback
  end.

(** The events the component reacts to. [ZoomEnd z]: the map has settled at
    zoom [z] and fires [zoomend]. *)
Inductive event : Type :=
| WsOpen
| WsMessage (parsed : result jsval)
| WsClose
| ZoomEnd (z : number).

(** ** The arithmetic on doubles *)

(** The callback on well-typed records and the size function, with the
    numbers of the code: [float] is IEEE 754 binary64, and [*], [/] and [-]
    round as the language's do. [Math.pow] is the language's; its results
    are not fixed by the language beyond special cases (it returns 1 for an
    exponent 0), so it is a parameter of [getMarkerSize]. *)

#[local] Set Warnings "-inexact-float".

Module Double.

(** [Math.PI], the double nearest to π: 3.141592653589793. *)
Definition Math_PI : float := 0x1.921fb54442d18p+1%float.

(** [(rotation_rad * 180) / Math.PI]. *)
Definition degrees (rotation_rad : float) : float :=
  ((rotation_rad * 180) / Math_PI)%float.

(** [getMarkerSize]: [baseSize * Math.pow(1.3, zoomLevel - 2)]. *)
Definition getMarkerSize (Math_pow : float → float → float) (zoomLevel : float) : float :=
  let baseSize := 10%float in
  let scaleFactor := Math_pow 1.3%float (zoomLevel - 2)%float in
  (baseSize * scaleFactor)%float.

Record Position : Type := { x : float; y : float }.

Record SharkData : Type := {
  position : Position;
  rotation_rad : float;
  speed : float;
}.

Record Marker : Type := {
  coordinates : float * float;
  markerFile : string;
  markerWidth : float;
  markerHeight : float;
  markerRotation : float;
}.

(** [marker.setCoordinates([x, y])]. *)
Definition setCoordinates (c : float * float) (m : Marker) : Marker :=
  {| coordinates := c; markerFile := markerFile m;
     markerWidth := markerWidth m; markerHeight := markerHeight m;
     markerRotation := markerRotation m |}.

(** [marker.updateSymbol({ markerRotation: deg })]. *)
Definition updateSymbol_rotation (deg : float) (m : Marker) : Marker :=
  {| coordinates := coordinates m; markerFile := markerFile m;
     markerWidth := markerWidth m; markerHeight := markerHeight m;
     markerRotation := deg |}.

(** [new Marker([x, y], { symbol: { markerFile, markerWidth: size,
    markerHeight: size, markerRotation: deg } })]. *)
Definition new_Marker (c : float * float) (size deg : float) : Marker :=
  {| coordinates := c;
     markerFile := "https://cdn-icons-png.flaticon.com/512/9339/9339269.png";
     markerWidth := size; markerHeight := size;
     markerRotation := deg |}.

(** The callback of [data.sharks.forEach((shark, idx) => ...)] on a
    well-typed record, as a function on [sharkMarkersRef.current]. *)
Definition forEach_shark (size : float) (shark : SharkData) (idx : nat)
    (markers : gmap nat Marker) : gmap nat Marker :=
  let c := (x (position shark), y (position shark)) in
  match markers !! idx with
  | Some m =>
      <[idx := updateSymbol_rotation (degrees (rotation_rad shark)) (setCoordinates c m)]>
        markers
  | None =>
      <[idx := new_Marker c size (degrees (rotation_rad shark))]> markers
  end.

End Double.




Section MapGL.

(** The conversions of a string and of an array or object to a number are
    the language's, not the component's: [StringToNumber] for a string,
    [ToPrimitive] followed by [ToNumber] for an array or object, which
    throws a [TypeError] when the object has no callable [valueOf] or
    [toString]. *)
Variable StringToNumber : string → number.
Variable ObjectToNumber : jsval → result number.

Variable props : MapGLProps.

Definition ToNumber (v : jsval) : result number :=
  match v with
  | JUndefined => Ok NaN
  | JNull => Ok (Num 0)
  | JBool b => Ok (Num (if b then 1 else 0))
  | JNumber n => Ok n
  | JString s => Ok (StringToNumber s)
  | JArray _ | JObject _ => ObjectToNumber v
  end.

(** [(rotation_rad * 180) / Math.PI]. *)
Definition rotation_degrees (rotation_rad : jsval) : M number :=
  let* n := lift (ToNumber rotation_rad) in
  ret (js_div (js_mul n (Num 180)) Math_PI).

(** The callback of [data.sharks.forEach((shark, idx) => ...)]. *)
Definition forEach_shark (size : number) (shark : jsval) (idx : nat) : M unit :=
  let* position := lift (get shark "position") in
  let* rotation_rad := lift (get shark "rotation_rad") in
  let* x := lift (get position "x") in
  let* y := lift (get position "y") in
  let* markers := gets sharkMarkersRef in
  match markers !! idx with
  | Some _ =>
      on_marker idx (setCoordinates (x, y)) ;;
      let* deg := rotation_degrees rotation_rad in
      on_marker idx (updateSymbol_rotation deg)
  | None =>
      let* deg := rotation_degrees rotation_rad in
      let marker := new_Marker (x, y) size deg in
      register idx marker ;;
      addGeometry idx
  end.

(** The [try] block of [ws.onmessage]; [parsed] is the outcome of
    [JSON.parse(event.data)]. *)
Definition onmessage_try (parsed : result jsval) : M unit :=
  let* data := lift parsed in
  let* sharks := lift (get data "sharks") in
  if negb (truthy sharks) || negb (Array_isArray sharks) then ret tt
  else
    let* map := gets mapRef in
    let currentZoom := getZoom_or map (zoom props) in
    let size := getMarkerSize currentZoom in
    match sharks with
    | JArray elems => forEach elems (forEach_shark size)
    | _ => ret tt
    end.

Definition onmessage (parsed : result jsval) : M unit :=
  try_catch (onmessage_try parsed) console_error.

Definition onopen : M unit := console_log LogConnected.
Definition onclose : M unit := console_log LogDisconnected.

Definition handle (ev : event) : M unit :=
  match ev with
  | WsOpen => onopen
  | WsMessage parsed => onmessage parsed
  | WsClose => onclose
  | ZoomEnd z =>
      let* map := gets mapRef in
      match map with
      | None => ret tt
      | Some _ => modify (set_mapRef (Some z)) ;; updateAllMarkerSizes
      end
  end.

(** The event loop: one handler at a time, in delivery order. *)
Definition run (evs : list event) (st : State) : State :=
  fold_left (λ s ev, fst (handle ev s)) evs st.

(** ** The earlier revision of the component *)

(** The other revision held by the repository: its markers are created at
    the fixed size 10 with another icon, and it has no [zoomend] listener. *)

(** [new Marker([x, y], { symbol: { markerFile, markerWidth: 10,
    markerHeight: 10, markerRotation: deg } })]. *)
Definition fixed_new_Marker (c : jsval * jsval) (deg : number) : Marker :=
  {| coordinates := c;
     markerFile := "https://cdn-icons-png.flaticon.com/512/616/616408.png";
     markerWidth := Num 10; markerHeight := Num 10;
     markerRotation := deg |}.

(** The callback of its [data.sharks.forEach((shark, idx) => ...)]. *)
Definition fixed_forEach_shark (shark : jsval) (idx : nat) : M unit :=
  let* position := lift (get shark "position") in
  let* rotation_rad := lift (get shark "rotation_rad") in
  let* x := lift (get position "x") in
  let* y := lift (get position "y") in
  let* markers := gets sharkMarkersRef in
  match markers !! idx with
  | Some _ =>
      on_marker idx (setCoordinates (x, y)) ;;
      let* deg := rotation_degrees rotation_rad in
      on_marker idx (updateSymbol_rotation deg)
  | None =>
      let* deg := rotation_degrees rotation_rad in
      let marker := fixed_new_Marker (x, y) deg in
      register idx marker ;;
      addGeometry idx
  end.

Definition fixed_onmessage_try (parsed : result jsval) : M unit :=
  let* data := lift parsed in
  let* sharks := lift (get data "sharks") in
  if negb (truthy sharks) || negb (Array_isArray sharks) then ret tt
  else
    match sharks with
    | JArray elems => forEach elems fixed_forEach_shark
    | _ => ret tt
    end.

Definition fixed_onmessage (parsed : result jsval) : M unit :=
  try_catch (fixed_onmessage_try parsed) console_error.

(** Its [ws.onopen] logs another line. *)
Definition fixed_onopen : M unit := console_log LogConnected2555.

(** Its events: the map still zooms, but nothing listens to [zoomend]. *)
Definition fixed_handle (ev : event) : M unit :=
  match ev with
  | WsOpen => fixed_onopen
  | WsMessage parsed => fixed_onmessage parsed
  | WsClose => onclose
  | ZoomEnd z =>
      let* map := gets mapRef in
      match map with
      | None => ret tt
      | Some _ => modify (set_mapRef (Some z))
      end
  end.

Definition fixed_run (evs : list event) (st : State) : State :=
  fold_left (λ s ev, fst (fixed_handle ev s)) evs st.

(** ** Well-typed batches *)

(** [SharkData] as the component declares it, and the value [JSON.parse]
    returns for a message that carries a sequence of them. *)
Record Position : Type := { x : R; y : R }.

Record SharkData : Type := {
  position : Position;
  rotation_rad : R;
  speed : R;
}.

Definition SharkData_value (shark : SharkData) : jsval :=
  JObject [("position", JObject [("x", JNumber (Num (x (position shark))));
                                 ("y", JNumber (Num (y (position shark))))]);
           ("rotation_rad", JNumber (Num (rotation_rad shark)));
           ("speed", JNumber (Num (speed shark)))].

Definition batch_value (sharks : list SharkData) : jsval :=
  JObject [("sharks", JArray (SharkData_value <$> sharks))].

Definition batch_message (sharks : list SharkData) : result jsval :=
  Ok (batch_value sharks).

(** ** Views used to state the properties *)

(** What the two destructurings at the head of the callback yield: the
    values bound to [x], [y] and [rotation_rad], or the exception. *)
Definition destructure (shark : jsval) : result (jsval * jsval * jsval) :=
  match get shark "position" with
  | Throw e => Throw e
  | Ok pos =>
      match get shark "rotation_rad" with
      | Throw e => Throw e
      | Ok rad =>
          match get pos "x" with
          | Throw e => Throw e
          | Ok vx =>
              match get pos "y" with
              | Throw e => Throw e
              | Ok vy => Ok (vx, vy, rad)
              end
          end
      end
  end.

(** The degrees of a number of radians. *)
Definition degrees (n : number) : number := js_div (js_mul n (Num 180)) Math_PI.

(** The coordinates and the rotation a well-typed record puts on a marker. *)
Definition coordinates_of (shark : SharkData) : jsval * jsval :=
  (JNumber (Num (x (position shark))), JNumber (Num (y (position shark)))).

Definition rotation_of (shark : SharkData) : number :=
  Num (rotation_rad shark * 180 / PI).

(** The marker under a key after a well-typed record was applied to it:
    moved and rotated when it was there, created with [size] otherwise. *)
Definition reconciled (size : number) (before : option Marker) (shark : SharkData) : Marker :=
  match before with
  | Some m => updateSymbol_rotation (rotation_of shark) (setCoordinates (coordinates_of shark) m)
  | None => new_Marker (coordinates_of shark) size (rotation_of shark)
  end.

(** The state after a well-typed record was applied at [idx]: the marker
    under [idx] is the reconciled one, and a created marker is on the layer. *)
Definition apply_shark (size : number) (idx : nat) (shark : SharkData) (st : State) : State :=
  let st' :=
    set_sharkMarkersRef
      (<[idx := reconciled size (sharkMarkersRef st !! idx) shark]> (sharkMarkersRef st)) st in
  match sharkMarkersRef st !! idx with
  | Some _ => st'
  | None => set_vectorLayerRef ((λ l, l ++ [idx]) <$> vectorLayerRef st) st'
  end.

(** The same for a sequence of records applied from index [idx] on. *)
Fixpoint apply_batch_from (size : number) (idx : nat) (sharks : list SharkData) (st : State) : State :=
  match sharks with
  | [] => st
  | shark :: rest => apply_batch_from size (S idx) rest (apply_shark size idx shark st)
  end.

(** Every marker of [st] is still tracked in [st'], under the same key and
    with the same file and size. *)
Definition keeps_markers (st st' : State) : Prop :=
  ∀ k m, sharkMarkersRef st !! k = Some m →
    ∃ m', sharkMarkersRef st' !! k = Some m' ∧
          markerFile m' = markerFile m ∧
          markerWidth m' = markerWidth m ∧
          markerHeight m' = markerHeight m.

(** The events of a session in which every message is a well-typed batch. *)
Inductive input : Type :=
| Opened
| Batch (sharks : list SharkData)
| Closed
| Zoomed (z : number).

Definition event_of (i : input) : event :=
  match i with
  | Opened => WsOpen
  | Batch sharks => WsMessage (batch_message sharks)
  | Closed => WsClose
  | Zoomed z => ZoomEnd z
  end.

(** The length of the longest batch among the inputs. *)
Fixpoint longest (inputs : list input) : nat :=
  match inputs with
  | [] => 0
  | Batch sharks :: rest => length sharks `max` longest rest
  | _ :: rest => longest rest
  end.

(** What the guard at the head of [ws.onmessage] lets through: the
    exception of [JSON.parse] or of reading [data.sharks], [None] when the
    guard returns, the records otherwise. *)
Definition sharks_of (parsed : result jsval) : result (option (list jsval)) :=
  match parsed with
  | Throw e => Throw e
  | Ok data =>
      match get data "sharks" with
      | Throw e => Throw e
      | Ok (JArray elems) => Ok (Some elems)
      | Ok _ => Ok None
      end
  end.

(** A message that fails to parse, or whose [sharks] field is absent or not
    an array. *)
Definition malformed (parsed : result jsval) : bool :=
  match sharks_of parsed with
  | Ok (Some _) => false
  | _ => true
  end.

(** The diagnostics [ws.onmessage] logs for a malformed message. *)
Definition diagnostics (parsed : result jsval) : list log_entry :=
  match sharks_of parsed with
  | Throw e => [LogParseFailure e]
  | Ok _ => []
  end.

(** The size function in the words of the specification, to compare
    [getMarkerSize] with: [baseSize * growthFactor^(zoom - referenceZoom)]. *)
Definition sizeFn (baseSize growthFactor referenceZoom zoom : R) : R :=
  (baseSize * Rpower growthFactor (zoom - referenceZoom))%R.

(** [a < b] on numbers; a comparison with NaN is false. *)
Definition number_lt (a b : number) : Prop :=
  match a, b with
  | Num r1, Num r2 => (r1 < r2)%R
  | _, _ => False
  end.

(** The size [ws.onmessage] gives to the markers it creates in [st]. *)
Definition creation_size (props : MapGLProps) (st : State) : number :=
  getMarkerSize (getZoom_or (mapRef st) (zoom props)).

(** The icon of the markers [new_Marker] creates, and the icon of the
    earlier revision. *)
Definition shark_icon : string :=
  "https://cdn-icons-png.flaticon.com/512/9339/9339269.png".

Definition fixed_icon : string :=
  "https://cdn-icons-png.flaticon.com/512/616/616408.png".

(** Where a marker is and how it is turned. *)
Definition placement (m : Marker) : jsval * jsval * number :=
  (coordinates m, markerRotation m).

(** What a well-typed input puts on the console. *)
Definition log_of_input (i : input) : list log_entry :=
  match i with
  | Opened => [LogConnected]
  | Closed => [LogDisconnected]
  | Batch _ | Zoomed _ => []
  end.

(** An event that leaves the map at a truthy zoom (not 0, not NaN), if it
    changes the zoom at all. *)
Definition zoom_truthy (ev : event) : bool :=
  match ev with
  | ZoomEnd z => number_truthy z
  | _ => true
  end.

(** The records a message carries past the guard of [ws.onmessage]. *)
Definition records (parsed : result jsval) : list jsval :=
  match sharks_of parsed with
  | Ok (Some elems) => elems
  | _ => []
  end.

(** The zoom the map is at after the events, when it was at [z] before. *)
Definition last_zoom (z : number) (evs : list event) : number :=
  fold_left (λ z0 ev, match ev with ZoomEnd z' => z' | _ => z0 end) evs z.

(** An event other than a zoom change. *)
Definition no_zoom (ev : event) : bool :=
  match ev with
  | ZoomEnd _ => false
  | _ => true
  end.

(** Every tracked marker of [st] satisfies [Q]. *)
Definition all_markers (Q : Marker → Prop) (st : State) : Prop :=
  ∀ k m, sharkMarkersRef st !! k = Some m → Q m.

(** The line the earlier revision logs where the later one logs [entry]:
    the two differ in the line of [ws.onopen] only. *)
Definition earlier_entry (entry : log_entry) : log_entry :=
  match entry with
  | LogConnected => LogConnected2555
  | _ => entry
  end.

(** A state [st1] of the component and a state [st2] of its earlier
    revision that track the same keys with the same placements, and have the
    same map zoom and layer and, line by line, the corresponding console. *)
Definition same_placements (st1 st2 : State) : Prop :=
  placement <$> sharkMarkersRef st1 = placement <$> sharkMarkersRef st2 ∧
  mapRef st1 = mapRef st2 ∧
  vectorLayerRef st1 = vectorLayerRef st2 ∧
  console st2 = earlier_entry <$> console st1.

(** ** Concrete inputs *)

(** Stand-ins for the language's conversions in the closed examples, none
    of which converts a string, an array or an object. *)
Definition sample_StringToNumber : string → number := λ _, NaN.
Definition sample_ObjectToNumber : jsval → result number := λ _, Ok NaN.

(** The two records of the scenario: a shark at (1, 2) heading 0, then at
    (5, 5) heading π/2. *)
Definition shark_a : SharkData :=
  {| position := {| x := 1; y := 2 |}; rotation_rad := 0; speed := 0 |}.

Definition shark_b : SharkData :=
  {| position := {| x := 5; y := 5 |}; rotation_rad := PI / 2; speed := 1 |}.

(** The message [{"notSharks":[]}]. *)
Definition notSharks : jsval := JObject [("notSharks", JArray [])].

(** A record without [position]: [{"rotation_rad":0,"speed":0}]. *)
Definition no_position : jsval :=
  JObject [("rotation_rad", JNumber (Num 0)); ("speed", JNumber (Num 0))].

(** A state with one marker, tracked under key 0 and on the layer. *)
Definition one_marker : State :=
  {| mapRef := Some (Num 2); vectorLayerRef := Some [0];
     sharkMarkersRef := {[0 := new_Marker (coordinates_of shark_a) (Num 10) (Num 0)]};
     console := [] |}.

(** A record without [rotation_rad]: [{"position":{"x":1,"y":2}}]. *)
Definition no_rotation : jsval :=
  JObject [("position", JObject [("x", JNumber (Num 1)); ("y", JNumber (Num 2))])].

(** ** Properties *)

(** *** The callback, case by case *)

Lemma alter_present (f : Marker → Marker) (ms : gmap nat Marker) idx m :
  ms !! idx = Some m → alter f idx ms = <[idx := f m]> ms.
Proof.
  intros Hm. apply map_eq. intros k.
  destruct (decide (idx = k)) as [->|Hne].
  - by rewrite lookup_alter_eq, lookup_insert_eq, Hm.
  - by rewrite lookup_alter_ne, lookup_insert_ne.
Qed.

Lemma forEach_shark_unfold size shark idx st :
  forEach_shark size shark idx st =
  match destructure shark with
  | Throw e => (st, Throw e)
  | Ok (vx, vy, rad) =>
      match sharkMarkersRef st !! idx, ToNumber rad with
      | Some m, Ok n =>
          (set_sharkMarkersRef
             (<[idx := updateSymbol_rotation (degrees n) (setCoordinates (vx, vy) m)]>
                (sharkMarkersRef st)) st, Ok tt)
      | Some m, Throw e =>
          (set_sharkMarkersRef
             (<[idx := setCoordinates (vx, vy) m]> (sharkMarkersRef st)) st, Throw e)
      | None, Ok n =>
          (set_vectorLayerRef ((λ l, l ++ [idx]) <$> vectorLayerRef st)
             (set_sharkMarkersRef
                (<[idx := new_Marker (vx, vy) size (degrees n)]> (sharkMarkersRef st)) st),
           Ok tt)
      | None, Throw e => (st, Throw e)
      end
  end.
Proof.
  unfold forEach_shark, destructure, bind, lift, gets.
  destruct (get shark "position") as [pos|e]; [|done].
  destruct (get shark "rotation_rad") as [rad|e]; [|done].
  destruct (get pos "x") as [vx|e]; [|done].
  destruct (get pos "y") as [vy|e]; [|done].
  destruct (sharkMarkersRef st !! idx) as [m|] eqn:Hm.
  - unfold on_marker, modify, rotation_degrees, bind, lift, ret. simpl.
    rewrite (alter_present _ _ idx m Hm).
    destruct (ToNumber rad) as [n|e]; simpl; [|done].
    unfold set_sharkMarkersRef; simpl.
    rewrite (alter_present _ _ idx (setCoordinates (vx, vy) m))
      by apply lookup_insert_eq.
    by rewrite insert_insert_eq.
  - unfold rotation_degrees, bind, lift, ret.
    destruct (ToNumber rad) as [n|e]; done.
Qed.

(** *** Well-typed records *)

Lemma destructure_typed (shark : SharkData) :
  destructure (SharkData_value shark) =
  Ok (coordinates_of shark, JNumber (Num (rotation_rad shark))).
Proof. reflexivity. Qed.

Lemma degrees_Num (r : R) : degrees (Num r) = Num (r * 180 / PI).
Proof. reflexivity. Qed.

Lemma forEach_shark_typed size (shark : SharkData) idx st :
  forEach_shark size (SharkData_value shark) idx st = (apply_shark size idx shark st, Ok tt).
Proof.
  rewrite forEach_shark_unfold, destructure_typed.
  unfold apply_shark, coordinates_of. simpl.
  destruct (sharkMarkersRef st !! idx) as [m|]; reflexivity.
Qed.

Lemma forEach_from_typed size (sharks : list SharkData) idx st :
  forEach_from idx (SharkData_value <$> sharks) (forEach_shark size) st =
  (apply_batch_from size idx sharks st, Ok tt).
Proof.
  revert idx st. induction sharks as [|shark rest IH]; intros idx st; [done|].
  simpl. unfold bind. rewrite forEach_shark_typed. apply IH.
Qed.

Lemma forEach_from_app idx (l1 l2 : list jsval) callback st :
  forEach_from idx (l1 ++ l2) callback st =
  match forEach_from idx l1 callback st with
  | (st', Ok _) => forEach_from (idx + length l1) l2 callback st'
  | (st', Throw e) => (st', Throw e)
  end.
Proof.
  revert idx st. induction l1 as [|v l1 IH]; intros idx st; simpl.
  - by rewrite Nat.add_0_r.
  - unfold bind. destruct (callback v idx st) as [st' [[]|e]]; [|done].
    rewrite IH. by replace (S idx + length l1) with (idx + S (length l1)) by lia.
Qed.

(** What is tracked under a key after a well-typed batch. *)
Lemma apply_shark_lookup size idx shark st k :
  sharkMarkersRef (apply_shark size idx shark st) !! k =
  if decide (k = idx) then Some (reconciled size (sharkMarkersRef st !! idx) shark)
  else sharkMarkersRef st !! k.
Proof.
  unfold apply_shark.
  destruct (sharkMarkersRef st !! idx) as [m|] eqn:Hm; simpl;
    case_decide as Hk; subst; by rewrite ?lookup_insert_eq, ?lookup_insert_ne.
Qed.

Lemma apply_batch_from_lookup_lt size sharks idx st k :
  k < idx →
  sharkMarkersRef (apply_batch_from size idx sharks st) !! k = sharkMarkersRef st !! k.
Proof.
  revert idx st. induction sharks as [|shark rest IH]; intros idx st Hk; [done|].
  simpl. rewrite IH by lia. rewrite apply_shark_lookup. case_decide; [lia|done].
Qed.

Lemma apply_batch_from_lookup size sharks idx st k :
  sharkMarkersRef (apply_batch_from size idx sharks st) !! (idx + k) =
  match sharks !! k with
  | Some shark => Some (reconciled size (sharkMarkersRef st !! (idx + k)) shark)
  | None => sharkMarkersRef st !! (idx + k)
  end.
Proof.
  revert idx st k. induction sharks as [|shark rest IH]; intros idx st k; [done|].
  simpl. destruct k as [|k]; simpl.
  - rewrite Nat.add_0_r, apply_batch_from_lookup_lt by lia.
    rewrite apply_shark_lookup. by case_decide.
  - replace (idx + S k) with (S idx + k) by lia. rewrite IH.
    rewrite apply_shark_lookup. case_decide; [lia|done].
Qed.

Lemma apply_batch_from_mapRef size sharks idx st :
  mapRef (apply_batch_from size idx sharks st) = mapRef st.
Proof.
  revert idx st. induction sharks as [|shark rest IH]; intros idx st; [done|].
  simpl. rewrite IH. unfold apply_shark.
  by destruct (sharkMarkersRef st !! idx).
Qed.

Lemma apply_batch_from_console size sharks idx st :
  console (apply_batch_from size idx sharks st) = console st.
Proof.
  revert idx st. induction sharks as [|shark rest IH]; intros idx st; [done|].
  simpl. rewrite IH. unfold apply_shark.
  by destruct (sharkMarkersRef st !! idx).
Qed.

Lemma reconciled_coordinates size before shark :
  coordinates (reconciled size before shark) = coordinates_of shark.
Proof. by destruct before. Qed.

Lemma reconciled_rotation size before shark :
  markerRotation (reconciled size before shark) = rotation_of shark.
Proof. by destruct before. Qed.

Lemma reconciled_size size m shark :
  markerWidth (reconciled size (Some m) shark) = markerWidth m ∧
  markerHeight (reconciled size (Some m) shark) = markerHeight m.
Proof. done. Qed.

(** *** A well-typed message *)

Lemma onmessage_batch (sharks : list SharkData) st :
  onmessage (batch_message sharks) st =
  (apply_batch_from (creation_size props st) 0 sharks st, Ok tt).
Proof.
  unfold onmessage, try_catch, onmessage_try, batch_message, batch_value.
  unfold bind, lift, gets; simpl.
  unfold forEach. by rewrite forEach_from_typed.
Qed.

Lemma onmessage_batch_lookup (sharks : list SharkData) st k :
  sharkMarkersRef (fst (onmessage (batch_message sharks) st)) !! k =
  match sharks !! k with
  | Some shark => Some (reconciled (creation_size props st) (sharkMarkersRef st !! k) shark)
  | None => sharkMarkersRef st !! k
  end.
Proof.
  rewrite onmessage_batch; simpl.
  apply (apply_batch_from_lookup (creation_size props st) sharks 0 st k).
Qed.

(** C1. Identity is positional: after a batch of well-typed records, the
    marker tracked under key [N] is the one record [N] of the batch was
    applied to -- the marker that was under [N], moved and rotated, or a
    new marker registered under [N] -- whatever state earlier batches
    left behind. *)
Theorem onmessage_positional (sharks : list SharkData) (st : State) (N : nat) (shark : SharkData) :
  sharks !! N = Some shark →
  sharkMarkersRef (fst (onmessage (batch_message sharks) st)) !! N =
  Some (reconciled (creation_size props st) (sharkMarkersRef st !! N) shark).
Proof.
  intros HN. by rewrite onmessage_batch_lookup, HN.
Qed.

(** C2. Last write wins: after two well-typed batches in sequence, the
    marker under every index of the second batch has the position of the
    second batch's record and its rotation in degrees, whatever the first
    batch held at that index. *)
Theorem last_write_wins (B1 B2 : list SharkData) (st : State) (i : nat) (shark : SharkData) :
  B2 !! i = Some shark →
  ∃ m, sharkMarkersRef
         (run [WsMessage (batch_message B1); WsMessage (batch_message B2)] st) !! i = Some m ∧
       coordinates m =
         (JNumber (Num (x (position shark))), JNumber (Num (y (position shark)))) ∧
       markerRotation m = Num (rotation_rad shark * 180 / PI).
Proof.
  intros Hi. unfold run; simpl fold_left.
  rewrite onmessage_batch_lookup, Hi.
  eexists; split; [done|].
  by rewrite reconciled_coordinates, reconciled_rotation.
Qed.

(** *** The size function *)

Lemma getMarkerSize_Num (z : R) : getMarkerSize (Num z) = Num (sizeFn 10 1.3 2 z).
Proof. reflexivity. Qed.

Lemma sizeFn_increasing (baseSize growthFactor referenceZoom z1 z2 : R) :
  (0 < baseSize)%R → (1 < growthFactor)%R → (z1 < z2)%R →
  (sizeFn baseSize growthFactor referenceZoom z1 < sizeFn baseSize growthFactor referenceZoom z2)%R.
Proof.
  intros Hb Hg Hz. unfold sizeFn.
  apply Rmult_lt_compat_l; [done|].
  apply Rpower_lt; lra.
Qed.

Lemma sizeFn_reference (baseSize growthFactor referenceZoom : R) :
  (0 < growthFactor)%R → sizeFn baseSize growthFactor referenceZoom referenceZoom = baseSize.
Proof.
  intros Hg. unfold sizeFn.
  replace (referenceZoom - referenceZoom)%R with 0%R by lra.
  rewrite Rpower_O by done. lra.
Qed.

Lemma getMarkerSize_lt (z1 z2 : R) :
  (z1 < z2)%R → number_lt (getMarkerSize (Num z1)) (getMarkerSize (Num z2)).
Proof.
  intros Hz. rewrite !getMarkerSize_Num. simpl. apply sizeFn_increasing; lra.
Qed.

Lemma getMarkerSize_reference : getMarkerSize (Num 2) = Num 10.
Proof. rewrite getMarkerSize_Num. f_equal. apply sizeFn_reference. lra. Qed.

Lemma getZoom_or_zero fallback : getZoom_or (Some (Num 0)) fallback = fallback.
Proof. simpl. by destruct (Req_dec_T 0 0). Qed.

Lemma getZoom_or_nonzero (z : R) fallback : z ≠ 0%R → getZoom_or (Some (Num z)) fallback = Num z.
Proof. intros Hz. simpl. by destruct (Req_dec_T z 0). Qed.

(** C10. While the map reports zoom 0, or there is no map, and the
    component runs with its default zoom prop, a marker that a batch
    creates gets the size of zoom 2, the base size 10, which is not the
    size of zoom 0. *)
Theorem created_at_zoom_zero_gets_default_size
    (sharks : list SharkData) (st : State) (idx : nat) (shark : SharkData) :
  zoom_prop props = None →
  mapRef st = Some (Num 0) ∨ mapRef st = None →
  sharkMarkersRef st !! idx = None →
  sharks !! idx = Some shark →
  ∃ m, sharkMarkersRef (fst (onmessage (batch_message sharks) st)) !! idx = Some m ∧
       markerWidth m = getMarkerSize (Num 2) ∧
       markerHeight m = getMarkerSize (Num 2) ∧
       getMarkerSize (Num 2) = Num 10 ∧
       getMarkerSize (Num 0) ≠ Num 10.
Proof.
  intros Hprop Hmap Hnone Hshark.
  assert (creation_size props st = getMarkerSize (Num 2)) as Hsize.
  { unfold creation_size, zoom. rewrite Hprop.
    destruct Hmap as [->| ->]; [by rewrite getZoom_or_zero|done]. }
  rewrite onmessage_batch_lookup, Hshark, Hnone, Hsize.
  eexists. split; [done|]. split; [done|]. split; [done|].
  split; [apply getMarkerSize_reference|].
  intros Heq. pose proof (getMarkerSize_lt 0 2 ltac:(lra)) as Hlt.
  rewrite Heq, getMarkerSize_reference in Hlt. simpl in Hlt. lra.
Qed.

(** *** Any message *)

Lemma onmessage_try_unfold parsed st :
  onmessage_try parsed st =
  match sharks_of parsed with
  | Throw e => (st, Throw e)
  | Ok None => (st, Ok tt)
  | Ok (Some elems) => forEach elems (forEach_shark (creation_size props st)) st
  end.
Proof.
  unfold onmessage_try, sharks_of, bind, lift, gets.
  destruct parsed as [data|e]; [|done]; simpl.
  destruct (get data "sharks") as [v|e]; [|done].
  destruct v; simpl; try done.
  - by destruct b.
  - by destruct (number_truthy n).
  - by destruct (negb (String.eqb s "")).
Qed.

Lemma keeps_markers_refl st : keeps_markers st st.
Proof. intros k m Hk; eauto. Qed.

Lemma forEach_shark_frame size shark idx st :
  let st' := fst (forEach_shark size shark idx st) in
  mapRef st' = mapRef st ∧ console st' = console st ∧
  (∀ k, k ≠ idx → sharkMarkersRef st' !! k = sharkMarkersRef st !! k) ∧
  keeps_markers st st'.
Proof.
  rewrite forEach_shark_unfold.
  destruct (destructure shark) as [[[vx vy] rad]|e]; simpl.
  2: { repeat split; try done. apply keeps_markers_refl. }
  destruct (sharkMarkersRef st !! idx) as [m0|] eqn:Hm0;
    destruct (ToNumber rad) as [n|e]; simpl.
  all: repeat split; try done; try apply keeps_markers_refl.
  all: try (intros k Hk; by rewrite lookup_insert_ne).
  all: intros k m Hk; simpl; destruct (decide (k = idx)) as [->|Hne];
    rewrite ?lookup_insert_eq, ?lookup_insert_ne by done; [|by eauto].
  all: rewrite Hm0 in Hk; simplify_eq; eauto.
Qed.

Lemma keeps_markers_trans st1 st2 st3 :
  keeps_markers st1 st2 → keeps_markers st2 st3 → keeps_markers st1 st3.
Proof.
  intros H12 H23 k m Hk.
  destruct (H12 k m Hk) as (m2 & Hk2 & Hf2 & Hw2 & Hh2).
  destruct (H23 k m2 Hk2) as (m3 & Hk3 & Hf3 & Hw3 & Hh3).
  exists m3. repeat split; congruence.
Qed.

Lemma forEach_from_frame size elems idx st :
  let st' := fst (forEach_from idx elems (forEach_shark size) st) in
  mapRef st' = mapRef st ∧ console st' = console st ∧
  (∀ k, k < idx → sharkMarkersRef st' !! k = sharkMarkersRef st !! k) ∧
  keeps_markers st st'.
Proof.
  revert idx st. induction elems as [|v rest IH]; intros idx st; simpl.
  { repeat split; try done. apply keeps_markers_refl. }
  unfold bind.
  pose proof (forEach_shark_frame size v idx st) as (Hmap & Hcon & Hother & Hkeep).
  destruct (forEach_shark size v idx st) as [st1 [[]|e]]; simpl in *.
  2: { repeat split; try done. intros k Hk. apply Hother. lia. }
  destruct (IH (S idx) st1) as (Hmap' & Hcon' & Hother' & Hkeep').
  repeat split; try congruence.
  - intros k Hk. rewrite Hother' by lia. apply Hother. lia.
  - by eapply keeps_markers_trans.
Qed.

Lemma onmessage_unfold parsed st :
  onmessage parsed st =
  match onmessage_try parsed st with
  | (st', Ok _) => (st', Ok tt)
  | (st', Throw e) => (set_console (console st' ++ [LogParseFailure e]) st', Ok tt)
  end.
Proof.
  unfold onmessage, try_catch.
  by destruct (onmessage_try parsed st) as [st' [[]|e]].
Qed.

(** No exception leaves the handler. *)
Lemma onmessage_returns parsed st : snd (onmessage parsed st) = Ok tt.
Proof.
  rewrite onmessage_unfold.
  by destruct (onmessage_try parsed st) as [st' [[]|e]].
Qed.

Lemma onmessage_frame parsed st :
  let st' := fst (onmessage parsed st) in
  mapRef st' = mapRef st ∧ keeps_markers st st'.
Proof.
  rewrite onmessage_unfold, onmessage_try_unfold.
  destruct (sharks_of parsed) as [[elems|]|e]; simpl;
    try (split; [done|apply (keeps_markers_refl st)]).
  unfold forEach.
  pose proof (forEach_from_frame (creation_size props st) elems 0 st)
    as (Hmap & _ & _ & Hkeep).
  destruct (forEach_from 0 elems _ st) as [st' [[]|e]]; split; done.
Qed.

(** C3, as the handler has it. A message that fails to parse, or whose
    [sharks] field is absent or not an array, changes no marker and no
    layer, and no exception leaves the handler. One diagnostic is logged
    when [JSON.parse] throws or the parsed value is [null]; none is logged
    when the guard returns. *)
Theorem malformed_message_discarded (parsed : result jsval) (st : State) :
  malformed parsed = true →
  snd (onmessage parsed st) = Ok tt ∧
  mapRef (fst (onmessage parsed st)) = mapRef st ∧
  sharkMarkersRef (fst (onmessage parsed st)) = sharkMarkersRef st ∧
  vectorLayerRef (fst (onmessage parsed st)) = vectorLayerRef st ∧
  console (fst (onmessage parsed st)) = console st ++ diagnostics parsed ∧
  diagnostics parsed =
    match parsed with
    | Throw e => [LogParseFailure e]
    | Ok JNull | Ok JUndefined => [LogParseFailure TypeError]
    | Ok _ => []
    end.
Proof.
  unfold malformed, diagnostics. intros Hbad.
  rewrite onmessage_unfold, onmessage_try_unfold.
  destruct (sharks_of parsed) as [[elems|]|e] eqn:Hs; [done| |]; simpl.
  - rewrite app_nil_r. repeat split.
    destruct parsed as [data|e]; [|done]. simpl in Hs.
    destruct data; simpl in Hs; try done.
  - repeat split.
    destruct parsed as [data|e']; simpl in Hs; [|congruence].
    destruct data as [| | | | | |ps]; simpl in Hs; try congruence.
    by destruct (own_property ps "sharks").
Qed.

(** C4, as the handler has it. A batch is applied up to its first record
    whose destructuring throws (a record that is [null] or has no
    [position]): the well-typed records before it take effect as a batch
    of their own, that record and the later ones have no effect, one
    diagnostic is logged, and no exception leaves the handler. *)
Theorem batch_stops_at_first_throw
    (applied : list SharkData) (bad : jsval) (rest : list jsval) (e : exn) (st : State) :
  destructure bad = Throw e →
  onmessage (Ok (JObject [("sharks", JArray ((SharkData_value <$> applied) ++ bad :: rest))])) st =
  (set_console (console st ++ [LogParseFailure e])
     (fst (onmessage (batch_message applied) st)), Ok tt).
Proof.
  intros Hbad. rewrite onmessage_batch.
  rewrite onmessage_unfold, onmessage_try_unfold. simpl.
  unfold forEach. rewrite forEach_from_app, forEach_from_typed. simpl.
  unfold bind. rewrite forEach_shark_unfold, Hbad.
  by rewrite apply_batch_from_console.
Qed.

(** C9. A message leaves the size of every marker that was already
    tracked as it was: the update path writes coordinates and rotation
    only. *)
Theorem update_keeps_size (parsed : result jsval) (st : State) (idx : nat) (m : Marker) :
  sharkMarkersRef st !! idx = Some m →
  ∃ m', sharkMarkersRef (fst (onmessage parsed st)) !! idx = Some m' ∧
        markerWidth m' = markerWidth m ∧
        markerHeight m' = markerHeight m.
Proof.
  intros Hm. destruct (onmessage_frame parsed st) as [_ Hkeep].
  destruct (Hkeep idx m Hm) as (m' & Hm' & _ & Hw & Hh). eauto.
Qed.

Lemma handle_ZoomEnd (z : number) (st : State) :
  handle (ZoomEnd z) st =
  match mapRef st with
  | None => (st, Ok tt)
  | Some _ =>
      (set_sharkMarkersRef (updateSymbol_size (getMarkerSize z) <$> sharkMarkersRef st)
         (set_mapRef (Some z) st), Ok tt)
  end.
Proof.
  unfold handle, updateAllMarkerSizes, bind, gets, modify.
  by destruct (mapRef st).
Qed.

(** The resize pass is what changes sizes: after [zoomend] at zoom [z]
    every tracked marker has the size of [z] and is otherwise as before. *)
Lemma zoomend_resizes (z : number) (st : State) (idx : nat) :
  is_Some (mapRef st) →
  sharkMarkersRef (fst (handle (ZoomEnd z) st)) !! idx =
  updateSymbol_size (getMarkerSize z) <$> sharkMarkersRef st !! idx.
Proof.
  intros [z0 Hz0]. rewrite handle_ZoomEnd, Hz0. simpl. apply lookup_fmap.
Qed.

(** *** Replaying a message *)

Lemma set_sharkMarkersRef_id st : set_sharkMarkersRef (sharkMarkersRef st) st = st.
Proof. by destruct st. Qed.

Lemma forEach_shark_settled size shark idx st st1 r :
  forEach_shark size shark idx st = (st1, r) →
  ∀ size' st2,
    sharkMarkersRef st2 !! idx = sharkMarkersRef st1 !! idx →
    forEach_shark size' shark idx st2 = (st2, r).
Proof.
  rewrite forEach_shark_unfold. intros Hstep size' st2 Hidx.
  rewrite forEach_shark_unfold.
  destruct (destructure shark) as [[[vx vy] rad]|e]; [|congruence].
  destruct (sharkMarkersRef st !! idx) as [m0|] eqn:Hm0;
    destruct (ToNumber rad) as [n|e]; simplify_eq; simpl in Hidx.
  - rewrite lookup_insert_eq in Hidx. rewrite Hidx.
    rewrite insert_id by done. by rewrite set_sharkMarkersRef_id.
  - rewrite lookup_insert_eq in Hidx. rewrite Hidx.
    rewrite insert_id by done. by rewrite set_sharkMarkersRef_id.
  - rewrite lookup_insert_eq in Hidx. rewrite Hidx.
    rewrite insert_id by done. by rewrite set_sharkMarkersRef_id.
  - by rewrite Hidx, Hm0.
Qed.

Lemma forEach_from_settled size elems idx st st1 r :
  forEach_from idx elems (forEach_shark size) st = (st1, r) →
  ∀ size' st2,
    (∀ k, idx ≤ k → sharkMarkersRef st2 !! k = sharkMarkersRef st1 !! k) →
    forEach_from idx elems (forEach_shark size') st2 = (st2, r).
Proof.
  revert idx st. induction elems as [|v rest IH]; intros idx st Hrun size' st2 Hsame.
  { simpl in *. unfold ret in *. congruence. }
  simpl in *. unfold bind in *.
  destruct (forEach_shark size v idx st) as [sta [[]|e]] eqn:Hstep.
  - pose proof (forEach_from_frame size rest (S idx) sta) as (_ & _ & Hlow & _).
    rewrite Hrun in Hlow. simpl in Hlow.
    rewrite (forEach_shark_settled _ _ _ _ _ _ Hstep size' st2).
    + apply (IH (S idx) sta Hrun). intros k Hk. apply Hsame. lia.
    + rewrite Hsame by lia. apply Hlow. lia.
  - simplify_eq.
    rewrite (forEach_shark_settled _ _ _ _ _ _ Hstep size' st2); [done|].
    by apply Hsame.
Qed.

(** C8. Replaying a message changes no marker: after the same message is
    handled a second time, every tracked marker (position, rotation and
    size) and the layer are as after the first time. *)
Theorem onmessage_idempotent (parsed : result jsval) (st : State) :
  sharkMarkersRef (fst (onmessage parsed (fst (onmessage parsed st)))) =
    sharkMarkersRef (fst (onmessage parsed st)) ∧
  vectorLayerRef (fst (onmessage parsed (fst (onmessage parsed st)))) =
    vectorLayerRef (fst (onmessage parsed st)).
Proof.
  assert (∀ st1 r, onmessage_try parsed st = (st1, r) →
          ∀ st2, sharkMarkersRef st2 = sharkMarkersRef st1 →
                 onmessage_try parsed st2 = (st2, r)) as Htry.
  { intros st1 r. rewrite !onmessage_try_unfold. intros Hrun st2 Hsame.
    rewrite onmessage_try_unfold.
    destruct (sharks_of parsed) as [[elems|]|e]; [|congruence..].
    unfold forEach in *.
    eapply forEach_from_settled; [done|]. intros k _. by rewrite Hsame. }
  rewrite (onmessage_unfold parsed st).
  destruct (onmessage_try parsed st) as [st1 [[]|e]] eqn:Hrun; simpl.
  - rewrite onmessage_unfold, (Htry _ _ eq_refl st1) by done. done.
  - rewrite onmessage_unfold.
    rewrite (Htry _ _ eq_refl (set_console (console st1 ++ [LogParseFailure e]) st1))
      by done.
    done.
Qed.

(** *** The tracked set *)

Lemma handle_keeps_tracked (ev : event) (st : State) (k : nat) :
  is_Some (sharkMarkersRef st !! k) →
  is_Some (sharkMarkersRef (fst (handle ev st)) !! k).
Proof.
  intros [m Hm]. destruct ev as [|parsed| |z]; [by eauto| |by eauto|].
  - destruct (onmessage_frame parsed st) as [_ Hkeep].
    destruct (Hkeep k m Hm) as (m' & Hm' & _). eauto.
  - rewrite handle_ZoomEnd. destruct (mapRef st) as [z0|]; simpl; [|by eauto].
    rewrite lookup_fmap, Hm. simpl. eauto.
Qed.

Lemma run_cons (ev : event) (evs : list event) (st : State) :
  run (ev :: evs) st = run evs (fst (handle ev st)).
Proof. reflexivity. Qed.

Lemma run_keeps_tracked (evs : list event) (st : State) (k : nat) :
  is_Some (sharkMarkersRef st !! k) →
  is_Some (sharkMarkersRef (run evs st) !! k).
Proof.
  revert st. induction evs as [|ev evs IH]; intros st Hk; simpl; [done|].
  by apply IH, handle_keeps_tracked.
Qed.

Lemma apply_batch_from_dom size sharks idx st :
  dom (sharkMarkersRef (apply_batch_from size idx sharks st)) =
  dom (sharkMarkersRef st) ∪ set_seq idx (length sharks).
Proof.
  revert idx st. induction sharks as [|shark rest IH]; intros idx st; simpl.
  - set_solver.
  - rewrite IH.
    assert (dom (sharkMarkersRef (apply_shark size idx shark st)) =
            {[idx]} ∪ dom (sharkMarkersRef st)) as ->.
    { unfold apply_shark.
      destruct (sharkMarkersRef st !! idx); simpl; apply dom_insert_L. }
    set_solver.
Qed.

Lemma set_seq_max (a b : nat) :
  (set_seq 0 a : gset nat) ∪ set_seq 0 b = set_seq 0 (a `max` b).
Proof.
  apply set_eq. intros k. rewrite elem_of_union, !elem_of_set_seq. lia.
Qed.

Lemma handle_input_dom (i : input) (st : State) :
  dom (sharkMarkersRef (fst (handle (event_of i) st))) =
  dom (sharkMarkersRef st) ∪
    match i with
    | Batch sharks => set_seq 0 (length sharks)
    | _ => ∅
    end.
Proof.
  destruct i as [|sharks| |z]; cbn [event_of].
  - simpl. set_solver.
  - simpl. rewrite onmessage_batch. simpl. apply apply_batch_from_dom.
  - simpl. set_solver.
  - rewrite handle_ZoomEnd. destruct (mapRef st) as [z0|]; simpl; [|set_solver].
    rewrite dom_fmap_L. set_solver.
Qed.

Lemma run_inputs_dom (inputs : list input) (st : State) (n : nat) :
  dom (sharkMarkersRef st) = set_seq 0 n →
  dom (sharkMarkersRef (run (event_of <$> inputs) st)) = set_seq 0 (n `max` longest inputs).
Proof.
  revert st n. induction inputs as [|i inputs IH]; intros st n Hdom.
  - simpl. by rewrite Nat.max_0_r.
  - pose proof (handle_input_dom i st) as Hstep. rewrite Hdom in Hstep.
    rewrite fmap_cons, run_cons.
    destruct i as [|sharks| |z]; cbn [longest].
    2: { rewrite set_seq_max in Hstep. rewrite (IH _ _ Hstep). f_equal. lia. }
    all: rewrite union_empty_r_L in Hstep; by rewrite (IH _ _ Hstep).
Qed.

(** Whatever the records are, the tracked keys stay an initial segment of
    the indices: the callback runs in index order and creates at most the
    key it is called with. *)
Lemma forEach_shark_dom size shark idx st :
  (dom (sharkMarkersRef (fst (forEach_shark size shark idx st))) = dom (sharkMarkersRef st) ∨
   dom (sharkMarkersRef (fst (forEach_shark size shark idx st))) =
     {[idx]} ∪ dom (sharkMarkersRef st)) ∧
  (snd (forEach_shark size shark idx st) = Ok tt →
   idx ∈ dom (sharkMarkersRef (fst (forEach_shark size shark idx st)))).
Proof.
  rewrite forEach_shark_unfold.
  destruct (destructure shark) as [[[vx vy] rad]|e]; [|by split; [left|]].
  destruct (sharkMarkersRef st !! idx) as [m0|];
    destruct (ToNumber rad) as [n|e]; simpl;
    rewrite ?dom_insert_L; split; try (by left); try (by right); try done;
    intros _; set_solver.
Qed.

Lemma forEach_from_segment size elems idx st n :
  idx ≤ n →
  dom (sharkMarkersRef st) = set_seq 0 n →
  ∃ n', n ≤ n' ∧
        dom (sharkMarkersRef (fst (forEach_from idx elems (forEach_shark size) st))) =
        set_seq 0 n'.
Proof.
  revert idx st n. induction elems as [|v rest IH]; intros idx st n Hidx Hdom.
  { exists n. by split. }
  simpl. unfold bind.
  destruct (forEach_shark_dom size v idx st) as [Hstep Hin].
  destruct (forEach_shark size v idx st) as [st1 r]; simpl in *.
  assert (∃ n1, n ≤ n1 ∧ dom (sharkMarkersRef st1) = set_seq 0 n1) as (n1 & Hn1 & Hdom1).
  { destruct Hstep as [->| ->]; [by exists n|]. rewrite Hdom.
    destruct (decide (idx = n)) as [->|Hne].
    - exists (S n). split; [lia|]. by rewrite set_seq_S_end_union_L.
    - exists n. split; [done|]. apply set_eq. intros k.
      rewrite elem_of_union, elem_of_singleton, elem_of_set_seq. lia. }
  destruct r as [[]|e]; simpl; [|by exists n1].
  specialize (Hin eq_refl). rewrite Hdom1, elem_of_set_seq in Hin.
  destruct (IH (S idx) st1 n1 ltac:(lia) Hdom1) as (n' & Hn' & Hdom').
  exists n'. split; [lia|done].
Qed.

Lemma handle_segment (ev : event) (st : State) (n : nat) :
  dom (sharkMarkersRef st) = set_seq 0 n →
  ∃ n', n ≤ n' ∧ dom (sharkMarkersRef (fst (handle ev st))) = set_seq 0 n'.
Proof.
  intros Hdom. destruct ev as [|parsed| |z]; [by exists n| |by exists n|].
  - simpl. rewrite onmessage_unfold, onmessage_try_unfold.
    destruct (sharks_of parsed) as [[elems|]|e]; simpl; [|by exists n..].
    destruct (forEach_from_segment (creation_size props st) elems 0 st n ltac:(lia) Hdom)
      as (n' & Hn' & Hdom').
    unfold forEach.
    destruct (forEach_from 0 elems _ st) as [st' [[]|e]]; by exists n'.
  - rewrite handle_ZoomEnd. destruct (mapRef st) as [z0|]; simpl; [|by exists n].
    exists n. by rewrite dom_fmap_L.
Qed.

Lemma run_segment (evs : list event) (st : State) (n : nat) :
  dom (sharkMarkersRef st) = set_seq 0 n →
  ∃ n', n ≤ n' ∧ dom (sharkMarkersRef (run evs st)) = set_seq 0 n'.
Proof.
  revert st n. induction evs as [|ev evs IH]; intros st n Hdom.
  { exists n. by split. }
  rewrite run_cons.
  destruct (handle_segment ev st n Hdom) as (n1 & Hn1 & Hdom1).
  destruct (IH _ _ Hdom1) as (n' & Hn' & Hdom').
  exists n'. split; [lia|done].
Qed.

(** C7. The tracked set never shrinks. Whatever the events, a key that is
    tracked stays tracked, and the keys tracked since the component was
    mounted are the indices below some bound; after a session of well-typed
    batches (with zoom, open and close events in between) that bound is the
    length of the longest batch seen, also when a later batch is shorter. *)
Theorem tracked_set_never_shrinks :
  (∀ (evs : list event) (st : State) (k : nat),
     is_Some (sharkMarkersRef st !! k) →
     is_Some (sharkMarkersRef (run evs st) !! k)) ∧
  (∀ evs : list event,
     ∃ n, dom (sharkMarkersRef (run evs (mounted props))) = set_seq 0 n) ∧
  (∀ inputs : list input,
     dom (sharkMarkersRef (run (event_of <$> inputs) (mounted props))) =
     set_seq 0 (longest inputs)).
Proof.
  split; [apply run_keeps_tracked|]. split.
  - intros evs.
    destruct (run_segment evs (mounted props) 0) as (n & _ & Hdom).
    + simpl. by rewrite dom_empty_L.
    + by exists n.
  - intros inputs. apply (run_inputs_dom inputs (mounted props) 0).
    simpl. by rewrite dom_empty_L.
Qed.

(** ** Further properties of the component *)

(** *** The resize pass *)

Lemma updateAllMarkerSizes_unfold (st : State) :
  updateAllMarkerSizes st =
  match mapRef st with
  | None => (st, Ok tt)
  | Some z =>
      (set_sharkMarkersRef (updateSymbol_size (getMarkerSize z) <$> sharkMarkersRef st) st,
       Ok tt)
  end.
Proof.
  unfold updateAllMarkerSizes, bind, gets, modify. by destruct (mapRef st).
Qed.

(** X3. With a map at zoom [z], [updateAllMarkerSizes] gives every tracked
    marker the width and height [getMarkerSize z] and changes nothing else:
    the same keys are tracked, every marker keeps its coordinates, rotation
    and icon, and the map, the layer and the console are as before. *)
Theorem updateAllMarkerSizes_resizes (st : State) (z : number) :
  mapRef st = Some z →
  mapRef (fst (updateAllMarkerSizes st)) = Some z ∧
  vectorLayerRef (fst (updateAllMarkerSizes st)) = vectorLayerRef st ∧
  console (fst (updateAllMarkerSizes st)) = console st ∧
  dom (sharkMarkersRef (fst (updateAllMarkerSizes st))) = dom (sharkMarkersRef st) ∧
  ∀ k m, sharkMarkersRef st !! k = Some m →
    ∃ m', sharkMarkersRef (fst (updateAllMarkerSizes st)) !! k = Some m' ∧
          placement m' = placement m ∧
          markerFile m' = markerFile m ∧
          markerWidth m' = getMarkerSize z ∧
          markerHeight m' = getMarkerSize z.
Proof.
  intros Hz. rewrite updateAllMarkerSizes_unfold, Hz. simpl.
  repeat split; try done.
  - apply dom_fmap_L.
  - intros k m Hk. rewrite lookup_fmap, Hk. simpl. eauto 10.
Qed.

(** X4. [updateAllMarkerSizes] is idempotent, with or without a map: a
    second pass right after the first changes nothing. *)
Theorem updateAllMarkerSizes_idempotent (st : State) :
  updateAllMarkerSizes (fst (updateAllMarkerSizes st)) =
  (fst (updateAllMarkerSizes st), Ok tt).
Proof.
  rewrite (updateAllMarkerSizes_unfold st).
  destruct (mapRef st) as [z|] eqn:Hz; simpl.
  - rewrite updateAllMarkerSizes_unfold. simpl. rewrite Hz.
    f_equal. unfold set_sharkMarkersRef; simpl. f_equal.
    rewrite <- map_fmap_compose. apply map_fmap_ext. by intros k [].
  - by rewrite updateAllMarkerSizes_unfold, Hz.
Qed.

(** *** Invariants of the tracked markers *)

Lemma forEach_from_preserves (P : State → Prop) (callback : jsval → nat → M unit) :
  (∀ v idx st, P st → P (fst (callback v idx st))) →
  ∀ elems idx st, P st → P (fst (forEach_from idx elems callback st)).
Proof.
  intros Hstep elems. induction elems as [|v rest IH]; intros idx st HP; [done|].
  simpl. unfold bind. specialize (Hstep v idx st HP).
  destruct (callback v idx st) as [st1 [[]|e]]; simpl in *; [by apply IH|done].
Qed.

Lemma forEach_shark_all_markers (Q : Marker → Prop) size :
  (∀ c m, Q m → Q (setCoordinates c m)) →
  (∀ d m, Q m → Q (updateSymbol_rotation d m)) →
  (∀ c d, Q (new_Marker c size d)) →
  ∀ v idx st, all_markers Q st → all_markers Q (fst (forEach_shark size v idx st)).
Proof.
  intros Hset Hrot Hnew v idx st HQ. rewrite forEach_shark_unfold.
  destruct (destructure v) as [[[vx vy] rad]|e]; [|done].
  destruct (sharkMarkersRef st !! idx) as [m0|] eqn:Hm0;
    destruct (ToNumber rad) as [n|e]; simpl; try done.
  all: intros k m; simpl; destruct (decide (k = idx)) as [->|Hne];
    rewrite ?lookup_insert_eq, ?lookup_insert_ne by done; [|by apply HQ].
  all: intros [= <-]; eauto.
Qed.

Lemma onmessage_preserves (P : State → Prop) parsed st :
  (∀ c s, P s → P (set_console c s)) →
  (∀ v idx s, P s → P (fst (forEach_shark (creation_size props st) v idx s))) →
  P st → P (fst (onmessage parsed st)).
Proof.
  intros Hcon Hstep HP. rewrite onmessage_unfold, onmessage_try_unfold.
  destruct (sharks_of parsed) as [[elems|]|e]; simpl; [|done|by apply Hcon].
  pose proof (forEach_from_preserves P _ Hstep elems 0 st HP) as HP'.
  unfold forEach.
  destruct (forEach_from 0 elems _ st) as [st' [[]|e]]; simpl in *; [done|].
  by apply Hcon.
Qed.

Lemma handle_all_markers (Q : Marker → Prop) (ev : event) (st : State) :
  (∀ c m, Q m → Q (setCoordinates c m)) →
  (∀ d m, Q m → Q (updateSymbol_rotation d m)) →
  (∀ c d, Q (new_Marker c (creation_size props st) d)) →
  (∀ z m, ev = ZoomEnd z → Q m → Q (updateSymbol_size (getMarkerSize z) m)) →
  all_markers Q st → all_markers Q (fst (handle ev st)).
Proof.
  intros Hset Hrot Hnew Hsize HQ. destruct ev as [|parsed| |z]; [done| |done|].
  - simpl. apply onmessage_preserves; [done| |done].
    intros v idx s. by apply forEach_shark_all_markers.
  - rewrite handle_ZoomEnd. destruct (mapRef st); [|done].
    intros k m. simpl. rewrite lookup_fmap.
    destruct (sharkMarkersRef st !! k) as [m0|] eqn:Hm0; [|done].
    intros [= <-]. apply (Hsize z); [done|]. by apply (HQ k).
Qed.

(** X5. Every marker the component tracks is square and carries the shark
    icon, whatever events it has handled since it was mounted. *)
Theorem markers_square_with_icon (evs : list event) :
  all_markers (λ m, markerWidth m = markerHeight m ∧ markerFile m = shark_icon)
    (run evs (mounted props)).
Proof.
  assert (∀ st, all_markers (λ m, markerWidth m = markerHeight m ∧
                                  markerFile m = shark_icon) st →
                all_markers (λ m, markerWidth m = markerHeight m ∧
                                  markerFile m = shark_icon) (run evs st)) as Hrun.
  { induction evs as [|ev evs IH]; intros st HQ; [done|].
    rewrite run_cons. apply IH. apply handle_all_markers; try done.
    intros z m _ [_ Hfile]. done. }
  apply Hrun. intros k m. simpl. by rewrite lookup_empty.
Qed.

Lemma getZoom_or_truthy (z fallback : number) :
  number_truthy z = true → getZoom_or (Some z) fallback = z.
Proof. intros Hz. simpl. by rewrite Hz. Qed.

Lemma handle_mapRef (ev : event) (st : State) (z : number) :
  mapRef st = Some z →
  mapRef (fst (handle ev st)) = Some (match ev with ZoomEnd z' => z' | _ => z end).
Proof.
  intros Hz. destruct ev as [|parsed| |z']; [done| |done|].
  - simpl. by destruct (onmessage_frame parsed st) as [-> _].
  - by rewrite handle_ZoomEnd, Hz.
Qed.

Lemma run_sizes_follow_zoom (evs : list event) (st : State) (z : number) :
  mapRef st = Some z → number_truthy z = true →
  forallb zoom_truthy evs = true →
  all_markers (λ m, markerWidth m = getMarkerSize z ∧ markerHeight m = getMarkerSize z) st →
  mapRef (run evs st) = Some (last_zoom z evs) ∧
  all_markers (λ m, markerWidth m = getMarkerSize (last_zoom z evs) ∧
                    markerHeight m = getMarkerSize (last_zoom z evs)) (run evs st).
Proof.
  revert st z. induction evs as [|ev evs IH]; intros st z Hz Htruthy Hevs HQ; [done|].
  simpl in Hevs. apply andb_prop in Hevs as [Hev Hevs].
  rewrite run_cons. pose proof (handle_mapRef ev st z Hz) as Hmap.
  destruct ev as [|parsed| |z']; cbn [last_zoom fold_left].
  - by apply (IH _ z).
  - apply (IH _ z); [done..|].
    apply handle_all_markers; try done.
    intros c d. unfold creation_size. by rewrite Hz, getZoom_or_truthy.
  - by apply (IH _ z).
  - apply (IH _ z'); [done..|].
    rewrite handle_ZoomEnd, Hz. intros k m. simpl. rewrite lookup_fmap.
    destruct (sharkMarkersRef st !! k); [|done]. by intros [= <-].
Qed.

(** X6. As long as the zoom prop and every zoom the map settles at are
    truthy (not 0, not NaN), all tracked markers have the size of the
    current zoom after every event: the markers a message creates match the
    ones the resize pass has resized. *)
Theorem sizes_follow_zoom (evs : list event) :
  number_truthy (zoom props) = true →
  forallb zoom_truthy evs = true →
  mapRef (run evs (mounted props)) = Some (last_zoom (zoom props) evs) ∧
  all_markers (λ m, markerWidth m = getMarkerSize (last_zoom (zoom props) evs) ∧
                    markerHeight m = getMarkerSize (last_zoom (zoom props) evs))
    (run evs (mounted props)).
Proof.
  intros Hprop Hevs. apply run_sizes_follow_zoom; [done..|].
  intros k m. simpl. by rewrite lookup_empty.
Qed.

(** *** The layer *)

Lemma forEach_shark_layer size shark idx st n :
  idx ≤ n →
  vectorLayerRef st = Some (seq 0 n) →
  dom (sharkMarkersRef st) = set_seq 0 n →
  ∃ n', n ≤ n' ∧
        vectorLayerRef (fst (forEach_shark size shark idx st)) = Some (seq 0 n') ∧
        dom (sharkMarkersRef (fst (forEach_shark size shark idx st))) = set_seq 0 n' ∧
        (snd (forEach_shark size shark idx st) = Ok tt → idx < n').
Proof.
  intros Hidx Hlayer Hdom. rewrite forEach_shark_unfold.
  destruct (destructure shark) as [[[vx vy] rad]|e]; [|by exists n].
  destruct (sharkMarkersRef st !! idx) as [m0|] eqn:Hm0.
  - assert (idx < n) as Hlt.
    { assert (idx ∈ dom (sharkMarkersRef st)) as Hin by (apply elem_of_dom; eauto).
      rewrite Hdom, elem_of_set_seq in Hin. lia. }
    assert (∀ m, dom (<[idx := m]> (sharkMarkersRef st)) = set_seq 0 n) as Hsame.
    { intros m. rewrite dom_insert_L, Hdom. apply set_eq. intros k.
      rewrite elem_of_union, elem_of_singleton, elem_of_set_seq. lia. }
    destruct (ToNumber rad) as [d|e]; exists n; simpl; by rewrite Hsame.
  - assert (idx = n) as ->.
    { assert (idx ∉ dom (sharkMarkersRef st)) as Hout by (by apply not_elem_of_dom).
      rewrite Hdom, elem_of_set_seq in Hout. lia. }
    destruct (ToNumber rad) as [d|e]; [|by exists n].
    exists (S n). rewrite seq_S, set_seq_S_end_union_L.
    cbn [fst snd vectorLayerRef sharkMarkersRef set_vectorLayerRef set_sharkMarkersRef].
    rewrite Hlayer, dom_insert_L, Hdom.
    split; [lia|]. split; [done|]. split; [done|lia].
Qed.

Lemma forEach_from_layer size elems idx st n :
  idx ≤ n →
  vectorLayerRef st = Some (seq 0 n) →
  dom (sharkMarkersRef st) = set_seq 0 n →
  ∃ n', n ≤ n' ∧
        vectorLayerRef (fst (forEach_from idx elems (forEach_shark size) st)) =
          Some (seq 0 n') ∧
        dom (sharkMarkersRef (fst (forEach_from idx elems (forEach_shark size) st))) =
          set_seq 0 n'.
Proof.
  revert idx st n. induction elems as [|v rest IH]; intros idx st n Hidx Hlayer Hdom.
  { by exists n. }
  simpl. unfold bind.
  destruct (forEach_shark_layer size v idx st n Hidx Hlayer Hdom)
    as (n1 & Hn1 & Hlayer1 & Hdom1 & Hok).
  destruct (forEach_shark size v idx st) as [st1 [[]|e]]; simpl in *; [|by exists n1].
  destruct (IH (S idx) st1 n1 ltac:(specialize (Hok eq_refl); lia) Hlayer1 Hdom1)
    as (n' & Hn' & Hlayer' & Hdom').
  exists n'. split; [lia|done].
Qed.

Lemma handle_layer (ev : event) (st : State) (n : nat) :
  vectorLayerRef st = Some (seq 0 n) →
  dom (sharkMarkersRef st) = set_seq 0 n →
  ∃ n', n ≤ n' ∧
        vectorLayerRef (fst (handle ev st)) = Some (seq 0 n') ∧
        dom (sharkMarkersRef (fst (handle ev st))) = set_seq 0 n'.
Proof.
  intros Hlayer Hdom. destruct ev as [|parsed| |z]; [by exists n| |by exists n|].
  - simpl. rewrite onmessage_unfold, onmessage_try_unfold.
    destruct (sharks_of parsed) as [[elems|]|e]; simpl; [|by exists n..].
    destruct (forEach_from_layer (creation_size props st) elems 0 st n
                ltac:(lia) Hlayer Hdom) as (n' & Hn' & Hlayer' & Hdom').
    unfold forEach.
    destruct (forEach_from 0 elems _ st) as [st' [[]|e]]; by exists n'.
  - rewrite handle_ZoomEnd. destruct (mapRef st) as [z0|]; simpl; [|by exists n].
    exists n. by rewrite dom_fmap_L.
Qed.

(** X8. The layer holds exactly the tracked markers, each once and in index
    order: after any events since the component was mounted, the geometries
    added to the layer are the markers under the keys [0 .. n-1], and these
    are all the tracked keys. *)
Theorem layer_lists_tracked_markers (evs : list event) :
  ∃ n, vectorLayerRef (run evs (mounted props)) = Some (seq 0 n) ∧
       dom (sharkMarkersRef (run evs (mounted props))) = set_seq 0 n.
Proof.
  assert (∀ st n, vectorLayerRef st = Some (seq 0 n) →
                  dom (sharkMarkersRef st) = set_seq 0 n →
                  ∃ n', vectorLayerRef (run evs st) = Some (seq 0 n') ∧
                        dom (sharkMarkersRef (run evs st)) = set_seq 0 n') as Hrun.
  { induction evs as [|ev evs IH]; intros st n Hlayer Hdom; [by exists n|].
    rewrite run_cons.
    destruct (handle_layer ev st n Hlayer Hdom) as (n1 & _ & Hlayer1 & Hdom1).
    by apply (IH _ n1). }
  apply (Hrun (mounted props) 0); [done|].
  simpl. by rewrite dom_empty_L.
Qed.

(** *** The console *)

Lemma handle_console (ev : event) (st : State) :
  ∃ entries, console (fst (handle ev st)) = console st ++ entries ∧ length entries ≤ 1.
Proof.
  destruct ev as [|parsed| |z].
  - exists [LogConnected]. split; [done|simpl; lia].
  - simpl. rewrite onmessage_unfold, onmessage_try_unfold.
    destruct (sharks_of parsed) as [[elems|]|e]; simpl.
    + unfold forEach.
      pose proof (forEach_from_frame (creation_size props st) elems 0 st)
        as (_ & Hcon & _).
      destruct (forEach_from 0 elems _ st) as [st' [[]|e]]; simpl in *.
      * exists []. rewrite app_nil_r. split; [done|simpl; lia].
      * exists [LogParseFailure e]. rewrite Hcon. split; [done|simpl; lia].
    + exists []. rewrite app_nil_r. split; [done|simpl; lia].
    + exists [LogParseFailure e]. split; [done|simpl; lia].
  - exists [LogDisconnected]. split; [done|simpl; lia].
  - exists []. rewrite app_nil_r, handle_ZoomEnd.
    split; [by destruct (mapRef st)|simpl; lia].
Qed.

(** X9. The console is append-only and every event adds at most one entry:
    after any events the earlier entries are still there, in order, followed
    by at most as many new entries as there were events. *)
Theorem console_grows_by_at_most_one (evs : list event) (st : State) :
  ∃ entries, console (run evs st) = console st ++ entries ∧
             length entries ≤ length evs.
Proof.
  revert st. induction evs as [|ev evs IH]; intros st.
  { exists []. by rewrite app_nil_r. }
  rewrite run_cons.
  destruct (handle_console ev st) as (l1 & Hl1 & Hlen1).
  destruct (IH (fst (handle ev st))) as (l2 & Hl2 & Hlen2).
  exists (l1 ++ l2). rewrite Hl2, Hl1, <- app_assoc.
  split; [done|]. rewrite length_app. simpl. lia.
Qed.

Lemma handle_input_console (i : input) (st : State) :
  console (fst (handle (event_of i) st)) = console st ++ log_of_input i.
Proof.
  destruct i as [|sharks| |z]; cbn [event_of log_of_input]; [done| |done|].
  - cbn [handle]. rewrite onmessage_batch, app_nil_r. apply apply_batch_from_console.
  - rewrite app_nil_r, handle_ZoomEnd. by destruct (mapRef st).
Qed.

(** X10. A session of well-typed batches logs no failure: the console
    gains exactly one entry per open and per close event, in order, and
    nothing for a batch or a zoom change. *)
Theorem well_typed_session_log (inputs : list input) (st : State) :
  console (run (event_of <$> inputs) st) = console st ++ concat (log_of_input <$> inputs).
Proof.
  revert st. induction inputs as [|i inputs IH]; intros st.
  { simpl. by rewrite app_nil_r. }
  rewrite !fmap_cons, run_cons, IH, handle_input_console. simpl.
  by rewrite <- app_assoc.
Qed.

(** *** Keys beyond a message *)

Lemma forEach_from_beyond size elems idx st k :
  idx + length elems ≤ k →
  sharkMarkersRef (fst (forEach_from idx elems (forEach_shark size) st)) !! k =
  sharkMarkersRef st !! k.
Proof.
  revert idx st. induction elems as [|v rest IH]; intros idx st Hk; [done|].
  simpl in *. unfold bind.
  pose proof (forEach_shark_frame size v idx st) as (_ & _ & Hother & _).
  destruct (forEach_shark size v idx st) as [st1 [[]|e]]; simpl in *.
  - rewrite IH by lia. apply Hother. lia.
  - apply Hother. lia.
Qed.

(** X11. A message touches no marker beyond its records: a key at or past
    the number of records it carries (every key, when the guard discards
    the message) holds after the message exactly what it held before, so
    the markers of sharks that a shorter batch no longer lists stay where
    they were. *)
Theorem markers_beyond_message_untouched (parsed : result jsval) (st : State) (k : nat) :
  length (records parsed) ≤ k →
  sharkMarkersRef (fst (onmessage parsed st)) !! k = sharkMarkersRef st !! k.
Proof.
  unfold records. intros Hk. rewrite onmessage_unfold, onmessage_try_unfold.
  destruct (sharks_of parsed) as [[elems|]|e]; simpl; [|done..].
  unfold forEach.
  pose proof (forEach_from_beyond (creation_size props st) elems 0 st k ltac:(simpl; lia))
    as Hsame.
  by destruct (forEach_from 0 elems _ st) as [st' [[]|e]].
Qed.

(** *** Batches in sequence *)

Lemma reconciled_absorbs size before (shark1 shark2 : SharkData) :
  reconciled size (Some (reconciled size before shark1)) shark2 =
  reconciled size before shark2.
Proof. by destruct before. Qed.

(** X12. A well-typed batch absorbs an earlier one that is not longer:
    handling [B1] and then [B2] leaves the same markers (keys, positions,
    rotations, sizes and icons) as handling [B2] alone. *)
Theorem longer_batch_absorbs_earlier (B1 B2 : list SharkData) (st : State) :
  length B1 ≤ length B2 →
  sharkMarkersRef (run [WsMessage (batch_message B1); WsMessage (batch_message B2)] st) =
  sharkMarkersRef (run [WsMessage (batch_message B2)] st).
Proof.
  intros Hlen. unfold run. simpl fold_left. apply map_eq. intros k.
  rewrite !onmessage_batch_lookup.
  assert (creation_size props (fst (onmessage (batch_message B1) st)) =
          creation_size props st) as ->.
  { unfold creation_size. by destruct (onmessage_frame (batch_message B1) st) as [-> _]. }
  destruct (B2 !! k) as [shark2|] eqn:H2.
  - destruct (B1 !! k) as [shark1|]; [|done]. by rewrite reconciled_absorbs.
  - apply lookup_ge_None in H2. by rewrite (lookup_ge_None_2 B1 k) by lia.
Qed.

(** *** The earlier revision *)

Lemma fixed_forEach_shark_unfold shark idx st :
  fixed_forEach_shark shark idx st =
  match destructure shark with
  | Throw e => (st, Throw e)
  | Ok (vx, vy, rad) =>
      match sharkMarkersRef st !! idx, ToNumber rad with
      | Some m, Ok n =>
          (set_sharkMarkersRef
             (<[idx := updateSymbol_rotation (degrees n) (setCoordinates (vx, vy) m)]>
                (sharkMarkersRef st)) st, Ok tt)
      | Some m, Throw e =>
          (set_sharkMarkersRef
             (<[idx := setCoordinates (vx, vy) m]> (sharkMarkersRef st)) st, Throw e)
      | None, Ok n =>
          (set_vectorLayerRef ((λ l, l ++ [idx]) <$> vectorLayerRef st)
             (set_sharkMarkersRef
                (<[idx := fixed_new_Marker (vx, vy) (degrees n)]> (sharkMarkersRef st)) st),
           Ok tt)
      | None, Throw e => (st, Throw e)
      end
  end.
Proof.
  unfold fixed_forEach_shark, destructure, bind, lift, gets.
  destruct (get shark "position") as [pos|e]; [|done].
  destruct (get shark "rotation_rad") as [rad|e]; [|done].
  destruct (get pos "x") as [vx|e]; [|done].
  destruct (get pos "y") as [vy|e]; [|done].
  destruct (sharkMarkersRef st !! idx) as [m|] eqn:Hm.
  - unfold on_marker, modify, rotation_degrees, bind, lift, ret. simpl.
    rewrite (alter_present _ _ idx m Hm).
    destruct (ToNumber rad) as [n|e]; simpl; [|done].
    unfold set_sharkMarkersRef; simpl.
    rewrite (alter_present _ _ idx (setCoordinates (vx, vy) m))
      by apply lookup_insert_eq.
    by rewrite insert_insert_eq.
  - unfold rotation_degrees, bind, lift, ret.
    destruct (ToNumber rad) as [n|e]; done.
Qed.

Lemma fixed_onmessage_unfold parsed st :
  fixed_onmessage parsed st =
  match sharks_of parsed with
  | Throw e => (set_console (console st ++ [LogParseFailure e]) st, Ok tt)
  | Ok None => (st, Ok tt)
  | Ok (Some elems) =>
      match forEach elems fixed_forEach_shark st with
      | (st', Ok _) => (st', Ok tt)
      | (st', Throw e) => (set_console (console st' ++ [LogParseFailure e]) st', Ok tt)
      end
  end.
Proof.
  unfold fixed_onmessage, try_catch, fixed_onmessage_try, sharks_of, bind, lift.
  destruct parsed as [data|e]; [|done]; simpl.
  destruct (get data "sharks") as [v|e]; [|done].
  destruct v; simpl; try done.
  - by destruct b.
  - by destruct (number_truthy n).
  - by destruct (negb (String.eqb s "")).
  - by destruct (forEach elems fixed_forEach_shark st) as [st' [[]|e]].
Qed.

Lemma fixed_handle_ZoomEnd (z : number) (st : State) :
  fixed_handle (ZoomEnd z) st =
  match mapRef st with
  | None => (st, Ok tt)
  | Some _ => (set_mapRef (Some z) st, Ok tt)
  end.
Proof. unfold fixed_handle, bind, gets, modify. by destruct (mapRef st). Qed.

Lemma fixed_run_cons (ev : event) (evs : list event) (st : State) :
  fixed_run (ev :: evs) st = fixed_run evs (fst (fixed_handle ev st)).
Proof. reflexivity. Qed.

Lemma fixed_forEach_shark_all_markers (Q : Marker → Prop) :
  (∀ c m, Q m → Q (setCoordinates c m)) →
  (∀ d m, Q m → Q (updateSymbol_rotation d m)) →
  (∀ c d, Q (fixed_new_Marker c d)) →
  ∀ v idx st, all_markers Q st → all_markers Q (fst (fixed_forEach_shark v idx st)).
Proof.
  intros Hset Hrot Hnew v idx st HQ. rewrite fixed_forEach_shark_unfold.
  destruct (destructure v) as [[[vx vy] rad]|e]; [|done].
  destruct (sharkMarkersRef st !! idx) as [m0|] eqn:Hm0;
    destruct (ToNumber rad) as [n|e]; simpl; try done.
  all: intros k m; simpl; destruct (decide (k = idx)) as [->|Hne];
    rewrite ?lookup_insert_eq, ?lookup_insert_ne by done; [|by apply HQ].
  all: intros [= <-]; eauto.
Qed.

(** X13. In the earlier revision every tracked marker is 10 by 10 and
    carries that revision's icon, whatever messages it has handled and
    however the map was zoomed since the component was mounted. *)
Theorem fixed_markers_stay_10 (evs : list event) :
  all_markers (λ m, markerWidth m = Num 10 ∧ markerHeight m = Num 10 ∧
                    markerFile m = fixed_icon)
    (fixed_run evs (mounted props)).
Proof.
  assert (∀ st,
            all_markers (λ m, markerWidth m = Num 10 ∧ markerHeight m = Num 10 ∧
                              markerFile m = fixed_icon) st →
            all_markers (λ m, markerWidth m = Num 10 ∧ markerHeight m = Num 10 ∧
                              markerFile m = fixed_icon) (fixed_run evs st)) as Hrun.
  { induction evs as [|ev evs IH]; intros st HQ; [done|].
    rewrite fixed_run_cons. apply IH. destruct ev as [|parsed| |z]; [done| |done|].
    - simpl. rewrite fixed_onmessage_unfold.
      destruct (sharks_of parsed) as [[elems|]|e]; [|done..].
      unfold forEach.
      assert (∀ v idx s,
                all_markers (λ m, markerWidth m = Num 10 ∧ markerHeight m = Num 10 ∧
                                  markerFile m = fixed_icon) s →
                all_markers (λ m, markerWidth m = Num 10 ∧ markerHeight m = Num 10 ∧
                                  markerFile m = fixed_icon)
                  (fst (fixed_forEach_shark v idx s))) as Hstep
        by (by apply fixed_forEach_shark_all_markers).
      pose proof (forEach_from_preserves _ _ Hstep elems 0 st HQ) as HQ'.
      by destruct (forEach_from 0 elems fixed_forEach_shark st) as [st' [[]|e]].
    - rewrite fixed_handle_ZoomEnd. by destruct (mapRef st). }
  apply Hrun. intros k m. simpl. by rewrite lookup_empty.
Qed.

Lemma placement_fmap_insert (ms : gmap nat Marker) idx m :
  placement <$> <[idx := m]> ms = <[idx := placement m]> (placement <$> ms).
Proof. apply fmap_insert. Qed.

Lemma forEach_shark_same_placements size shark idx st1 st2 :
  same_placements st1 st2 →
  same_placements (fst (forEach_shark size shark idx st1))
                  (fst (fixed_forEach_shark shark idx st2)) ∧
  snd (forEach_shark size shark idx st1) = snd (fixed_forEach_shark shark idx st2).
Proof.
  intros (Hms & Hmap & Hlayer & Hcon).
  rewrite forEach_shark_unfold, fixed_forEach_shark_unfold.
  destruct (destructure shark) as [[[vx vy] rad]|e]; [|done].
  pose proof (f_equal (λ ms, ms !! idx) Hms) as Hidx. simpl in Hidx.
  rewrite !lookup_fmap in Hidx.
  destruct (sharkMarkersRef st1 !! idx) as [m1|], (sharkMarkersRef st2 !! idx) as [m2|];
    simpl in Hidx; try done.
  - injection Hidx as Hc Hr.
    destruct (ToNumber rad) as [n|e]; (split; [|done]); repeat split; simpl; try done.
    + by rewrite !placement_fmap_insert, Hms.
    + rewrite !placement_fmap_insert, Hms. unfold placement. simpl. by rewrite Hr.
  - destruct (ToNumber rad) as [n|e]; (split; [|done]); repeat split; simpl; try done.
    + by rewrite !placement_fmap_insert, Hms.
    + by rewrite Hlayer.
Qed.

Lemma forEach_from_same_placements size elems idx st1 st2 :
  same_placements st1 st2 →
  same_placements (fst (forEach_from idx elems (forEach_shark size) st1))
                  (fst (forEach_from idx elems fixed_forEach_shark st2)) ∧
  snd (forEach_from idx elems (forEach_shark size) st1) =
  snd (forEach_from idx elems fixed_forEach_shark st2).
Proof.
  revert idx st1 st2. induction elems as [|v rest IH]; intros idx st1 st2 Hsame; [done|].
  simpl. unfold bind.
  destruct (forEach_shark_same_placements size v idx st1 st2 Hsame) as [Hstep Hres].
  destruct (forEach_shark size v idx st1) as [s1 r1],
           (fixed_forEach_shark v idx st2) as [s2 r2]; simpl in *. subst r2.
  destruct r1 as [[]|e]; [by apply IH|done].
Qed.

Lemma handle_same_placements (ev : event) (st1 st2 : State) :
  same_placements st1 st2 →
  same_placements (fst (handle ev st1)) (fst (fixed_handle ev st2)).
Proof.
  intros Hsame. pose proof Hsame as (Hms & Hmap & Hlayer & Hcon).
  destruct ev as [|parsed| |z].
  - repeat split; simpl; try done. by rewrite fmap_app, Hcon.
  - simpl. rewrite onmessage_unfold, onmessage_try_unfold, fixed_onmessage_unfold.
    destruct (sharks_of parsed) as [[elems|]|e]; [|done|].
    + unfold forEach.
      destruct (forEach_from_same_placements (creation_size props st1) elems 0 st1 st2 Hsame)
        as [(Hms' & Hmap' & Hlayer' & Hcon') Hres].
      destruct (forEach_from 0 elems (forEach_shark _) st1) as [s1 r1],
               (forEach_from 0 elems fixed_forEach_shark st2) as [s2 r2]; simpl in *.
      subst r2. destruct r1 as [[]|e]; repeat split; simpl; try done.
      by rewrite fmap_app, Hcon'.
    + repeat split; simpl; try done. by rewrite fmap_app, Hcon.
  - repeat split; simpl; try done. by rewrite fmap_app, Hcon.
  - rewrite handle_ZoomEnd, fixed_handle_ZoomEnd, <- Hmap.
    destruct (mapRef st1); [|done].
    repeat split; simpl; try done.
    rewrite <- Hms, <- map_fmap_compose. apply map_fmap_ext. by intros k [].
Qed.

(** X14. The two revisions place the markers alike: after the same events
    since the component was mounted they track the same keys, with the same
    coordinates and rotation under every key, and have the same layer and
    map zoom; their consoles correspond line by line and differ only in the
    line logged on open (port 25555 against port 2555). The marker sizes
    and icons differ. *)
Theorem revisions_place_markers_alike (evs : list event) :
  same_placements (run evs (mounted props)) (fixed_run evs (mounted props)).
Proof.
  assert (∀ st1 st2, same_placements st1 st2 →
                     same_placements (run evs st1) (fixed_run evs st2)) as Hrun.
  { induction evs as [|ev evs IH]; intros st1 st2 Hsame; [done|].
    rewrite run_cons, fixed_run_cons. by apply IH, handle_same_placements. }
  by apply Hrun.
Qed.

(** *** Records with a missing field *)

(** X15. A record that has a position with numeric coordinates but no
    [rotation_rad] does not stop the batch and logs nothing: it is applied
    like any other record, the marker under its index gets the record's
    coordinates, and the rotation written to the marker is NaN. *)
Theorem record_without_rotation_is_applied
    (size : number) (shark : jsval) (idx : nat) (st : State) (a b : R) :
  destructure shark = Ok (JNumber (Num a), JNumber (Num b), JUndefined) →
  snd (forEach_shark size shark idx st) = Ok tt ∧
  console (fst (forEach_shark size shark idx st)) = console st ∧
  ∃ m, sharkMarkersRef (fst (forEach_shark size shark idx st)) !! idx = Some m ∧
       coordinates m = (JNumber (Num a), JNumber (Num b)) ∧
       markerRotation m = NaN.
Proof.
  intros Hshark. rewrite forEach_shark_unfold, Hshark. simpl.
  destruct (sharkMarkersRef st !! idx) as [m0|]; simpl;
    (split; [done|]); (split; [done|]); rewrite lookup_insert_eq; eauto.
Qed.

End MapGL.

(** ** The arithmetic of the component on doubles *)







(** ** The properties at concrete inputs *)

Lemma onmessage_positional_witness :
  [shark_a] !! 0 = Some shark_a ∧
  sharkMarkersRef
    (fst (onmessage sample_StringToNumber sample_ObjectToNumber App_props
            (batch_message [shark_a]) (mounted App_props))) !! 0 =
  Some (reconciled (creation_size App_props (mounted App_props))
          (sharkMarkersRef (mounted App_props) !! 0) shark_a).
Proof.
  split; [reflexivity|].
  apply (onmessage_positional sample_StringToNumber sample_ObjectToNumber App_props
           [shark_a] (mounted App_props) 0 shark_a).
  reflexivity.
Defined.

Lemma last_write_wins_witness :
  [shark_b] !! 0 = Some shark_b ∧
  ∃ m, sharkMarkersRef
         (run sample_StringToNumber sample_ObjectToNumber App_props
            [WsMessage (batch_message [shark_a]); WsMessage (batch_message [shark_b])]
            (mounted App_props)) !! 0 = Some m ∧
       coordinates m = (JNumber (Num 5), JNumber (Num 5)) ∧
       markerRotation m = Num (PI / 2 * 180 / PI).
Proof.
  split; [reflexivity|].
  apply (last_write_wins sample_StringToNumber sample_ObjectToNumber App_props
           [shark_a] [shark_b] (mounted App_props) 0 shark_b).
  reflexivity.
Defined.

Lemma malformed_message_discarded_witness :
  malformed (Ok notSharks) = true ∧
  console (fst (onmessage sample_StringToNumber sample_ObjectToNumber App_props
                  (Ok notSharks) (mounted App_props))) =
  console (mounted App_props) ++ diagnostics (Ok notSharks).
Proof.
  split; [reflexivity|].
  apply (malformed_message_discarded sample_StringToNumber sample_ObjectToNumber App_props
           (Ok notSharks) (mounted App_props)).
  reflexivity.
Defined.

(** C3 fails as stated: [{"notSharks":[]}] is malformed and the handler
    returns at its guard without logging anything. *)
Lemma notSharks_logs_nothing :
  malformed (Ok notSharks) = true ∧
  length (console (fst (onmessage sample_StringToNumber sample_ObjectToNumber App_props
                          (Ok notSharks) (mounted App_props)))) ≠
  length (console (mounted App_props)) + 1.
Proof. split; [reflexivity|]. simpl. lia. Qed.

Lemma batch_stops_at_first_throw_witness :
  destructure no_position = Throw TypeError ∧
  onmessage sample_StringToNumber sample_ObjectToNumber App_props
    (Ok (JObject [("sharks", JArray ((SharkData_value <$> [shark_a]) ++ no_position :: []))]))
    (mounted App_props) =
  (set_console (console (mounted App_props) ++ [LogParseFailure TypeError])
     (fst (onmessage sample_StringToNumber sample_ObjectToNumber App_props
             (batch_message [shark_a]) (mounted App_props))), Ok tt).
Proof.
  split; [reflexivity|].
  apply (batch_stops_at_first_throw sample_StringToNumber sample_ObjectToNumber App_props
           [shark_a] no_position [] TypeError (mounted App_props)).
  reflexivity.
Defined.

(** C4 fails as stated: of the batch [[shark_a, no_position]] the first
    record takes effect (a marker appears under key 0, so the tracked state
    is not the one before the batch) and the second does not (nothing is
    tracked under key 1). *)
Lemma batch_applied_in_part :
  sharkMarkersRef (mounted App_props) !! 0 = None ∧
  is_Some
    (sharkMarkersRef
       (fst (onmessage sample_StringToNumber sample_ObjectToNumber App_props
               (Ok (JObject [("sharks", JArray [SharkData_value shark_a; no_position])]))
               (mounted App_props))) !! 0) ∧
  sharkMarkersRef
    (fst (onmessage sample_StringToNumber sample_ObjectToNumber App_props
            (Ok (JObject [("sharks", JArray [SharkData_value shark_a; no_position])]))
            (mounted App_props))) !! 1 = None ∧
  console
    (fst (onmessage sample_StringToNumber sample_ObjectToNumber App_props
            (Ok (JObject [("sharks", JArray [SharkData_value shark_a; no_position])]))
            (mounted App_props))) = [LogParseFailure TypeError].
Proof.
  pose proof (batch_stops_at_first_throw sample_StringToNumber sample_ObjectToNumber App_props
                [shark_a] no_position [] TypeError (mounted App_props) eq_refl) as H.
  simpl in H. rewrite H. simpl.
  rewrite !onmessage_batch_lookup. simpl.
  split; [done|]. split; [by eauto|]. done.
Qed.

Lemma tracked_set_never_shrinks_witness :
  is_Some (sharkMarkersRef one_marker !! 0) ∧
  is_Some (sharkMarkersRef
             (run sample_StringToNumber sample_ObjectToNumber App_props
                [WsMessage (batch_message []); ZoomEnd (Num 4); WsMessage (Ok notSharks)]
                one_marker) !! 0).
Proof.
  assert (is_Some (sharkMarkersRef one_marker !! 0)) as Htracked.
  { simpl. rewrite lookup_singleton_eq. eauto. }
  split; [exact Htracked|].
  apply (proj1 (tracked_set_never_shrinks sample_StringToNumber sample_ObjectToNumber
                  App_props)).
  exact Htracked.
Defined.

Lemma update_keeps_size_witness :
  sharkMarkersRef one_marker !! 0 =
    Some (new_Marker (coordinates_of shark_a) (Num 10) (Num 0)) ∧
  ∃ m', sharkMarkersRef
          (fst (onmessage sample_StringToNumber sample_ObjectToNumber App_props
                  (batch_message [shark_b]) one_marker)) !! 0 = Some m' ∧
        markerWidth m' = Num 10 ∧ markerHeight m' = Num 10.
Proof.
  assert (sharkMarkersRef one_marker !! 0 =
          Some (new_Marker (coordinates_of shark_a) (Num 10) (Num 0))) as Htracked.
  { simpl. apply lookup_singleton_eq. }
  split; [exact Htracked|].
  apply (update_keeps_size sample_StringToNumber sample_ObjectToNumber App_props
           (batch_message [shark_b]) one_marker 0 _ Htracked).
Defined.

Lemma created_at_zoom_zero_gets_default_size_witness :
  zoom_prop App_props = None ∧
  mapRef (set_mapRef (Some (Num 0)) (mounted App_props)) = Some (Num 0) ∧
  sharkMarkersRef (set_mapRef (Some (Num 0)) (mounted App_props)) !! 0 = None ∧
  [shark_a] !! 0 = Some shark_a ∧
  ∃ m, sharkMarkersRef
         (fst (onmessage sample_StringToNumber sample_ObjectToNumber App_props
                 (batch_message [shark_a])
                 (set_mapRef (Some (Num 0)) (mounted App_props)))) !! 0 = Some m ∧
       markerWidth m = getMarkerSize (Num 2) ∧
       markerHeight m = getMarkerSize (Num 2) ∧
       getMarkerSize (Num 2) = Num 10 ∧
       getMarkerSize (Num 0) ≠ Num 10.
Proof.
  split; [reflexivity|]. split; [reflexivity|]. split; [reflexivity|].
  split; [reflexivity|].
  apply (created_at_zoom_zero_gets_default_size
           sample_StringToNumber sample_ObjectToNumber App_props
           [shark_a] (set_mapRef (Some (Num 0)) (mounted App_props)) 0 shark_a);
    [reflexivity|left; reflexivity|reflexivity|reflexivity].
Defined.

(** ** The scenarios of the specification *)

(** At zoom 2 the batch [[shark_a]] creates exactly one marker, at (1, 2)
    with rotation 0 and the base size; the batch [[shark_b]] then moves that
    marker to (5, 5) and turns it to 90 degrees, its size unchanged. *)
Lemma scenario_create_then_update :
  let handled := run sample_StringToNumber sample_ObjectToNumber App_props in
  let st1 := handled [WsMessage (batch_message [shark_a])] (mounted App_props) in
  let st2 := handled [WsMessage (batch_message [shark_b])] st1 in
  sharkMarkersRef st1 =
    {[0 := new_Marker (JNumber (Num 1), JNumber (Num 2)) (Num 10) (Num 0)]} ∧
  vectorLayerRef st1 = Some [0] ∧
  sharkMarkersRef st2 =
    {[0 := new_Marker (JNumber (Num 5), JNumber (Num 5)) (Num 10) (Num 90)]} ∧
  vectorLayerRef st2 = Some [0].
Proof.
  assert (creation_size App_props (mounted App_props) = Num 10) as Hsize.
  { unfold creation_size. change (mapRef (mounted App_props)) with (Some (Num 2)).
    change (zoom App_props) with (Num 2).
    rewrite getZoom_or_nonzero by lra. apply getMarkerSize_reference. }
  assert (rotation_of shark_a = Num 0) as Ha.
  { unfold rotation_of. simpl. f_equal. field. apply PI_neq0. }
  assert (rotation_of shark_b = Num 90) as Hb.
  { unfold rotation_of. simpl. f_equal. field. apply PI_neq0. }
  cbn zeta. unfold run. simpl fold_left.
  rewrite !onmessage_batch.
  cbn [fst apply_batch_from].
  unfold apply_shark at 2. simpl sharkMarkersRef at 1.
  assert (apply_shark (creation_size App_props (mounted App_props)) 0 shark_a
            (mounted App_props) =
          {| mapRef := Some (Num 2); vectorLayerRef := Some [0];
             sharkMarkersRef :=
               {[0 := new_Marker (JNumber (Num 1), JNumber (Num 2)) (Num 10) (Num 0)]};
             console := [] |}) as ->.
  { unfold apply_shark. simpl sharkMarkersRef. rewrite lookup_empty.
    unfold set_vectorLayerRef, set_sharkMarkersRef, reconciled. simpl.
    by rewrite Hsize, Ha, insert_empty. }
  split; [done|]. split; [done|].
  unfold apply_shark. simpl sharkMarkersRef. rewrite lookup_singleton_eq.
  unfold reconciled. rewrite Hb. simpl.
  by rewrite insert_singleton_eq.
Qed.

(** A zoom change from 2 to 4 scales every tracked marker to
    [baseSize * 1.3^2]. *)
Lemma scenario_zoom_2_to_4 :
  mapRef one_marker = Some (Num 2) ∧
  getMarkerSize (Num 4) = Num (10 * (1.3 * 1.3)) ∧
  sharkMarkersRef
    (fst (handle sample_StringToNumber sample_ObjectToNumber App_props
            (ZoomEnd (Num 4)) one_marker)) =
  updateSymbol_size (Num (10 * (1.3 * 1.3))) <$> sharkMarkersRef one_marker.
Proof.
  assert (getMarkerSize (Num 4) = Num (10 * (1.3 * 1.3))) as Hsize.
  { rewrite getMarkerSize_Num. unfold sizeFn. f_equal. f_equal.
    replace (4 - 2)%R with (INR 2) by (simpl; lra).
    rewrite Rpower_pow by lra. simpl. lra. }
  split; [done|]. split; [done|].
  rewrite handle_ZoomEnd. simpl. by rewrite Hsize.
Qed.


(** ** The component as [App] renders it *)

Lemma last_zoom_no_zoom (z : number) (evs : list event) :
  forallb no_zoom evs = true → last_zoom z evs = z.
Proof.
  revert z. induction evs as [|ev evs IH]; intros z Hevs; [done|].
  simpl in Hevs. apply andb_prop in Hevs as [Hev Hevs].
  destruct ev; try done; by apply IH.
Qed.

Lemma no_zoom_truthy (evs : list event) :
  forallb no_zoom evs = true → forallb zoom_truthy evs = true.
Proof.
  induction evs as [|ev evs IH]; intros Hevs; [done|].
  simpl in *. apply andb_prop in Hevs as [Hev Hevs].
  rewrite (IH Hevs). by destruct ev.
Qed.

Lemma number_truthy_2 : number_truthy (Num 2) = true.
Proof. simpl. destruct (Req_dec_T 2 0) as [H|H]; [lra|reflexivity]. Defined.

(** X16. [App] renders the component without props, so the map starts at
    zoom 2: until the first zoom change every tracked marker is 10 by 10,
    whatever messages arrive. *)
Theorem App_markers_are_10_until_zoom
    (StringToNumber : string → number) (ObjectToNumber : jsval → result number)
    (evs : list event) :
  forallb no_zoom evs = true →
  mapRef (run StringToNumber ObjectToNumber App_props evs (mounted App_props)) =
    Some (Num 2) ∧
  all_markers (λ m, markerWidth m = Num 10 ∧ markerHeight m = Num 10)
    (run StringToNumber ObjectToNumber App_props evs (mounted App_props)).
Proof.
  intros Hevs.
  pose proof (run_sizes_follow_zoom StringToNumber ObjectToNumber App_props
                evs (mounted App_props) (Num 2) eq_refl number_truthy_2
                (no_zoom_truthy evs Hevs)) as Hrun.
  rewrite (last_zoom_no_zoom _ _ Hevs), getMarkerSize_reference in Hrun.
  apply Hrun. intros k m. simpl. by rewrite lookup_empty.
Qed.

(** ** The further properties at concrete inputs *)

Lemma updateAllMarkerSizes_resizes_witness :
  mapRef one_marker = Some (Num 2) ∧
  dom (sharkMarkersRef (fst (updateAllMarkerSizes one_marker))) =
  dom (sharkMarkersRef one_marker).
Proof.
  split; [reflexivity|].
  apply (updateAllMarkerSizes_resizes one_marker (Num 2)).
  reflexivity.
Defined.

Lemma number_truthy_4 : number_truthy (Num 4) = true.
Proof. simpl. destruct (Req_dec_T 4 0) as [H|H]; [lra|reflexivity]. Defined.

Lemma sizes_follow_zoom_witness :
  number_truthy (zoom App_props) = true ∧
  forallb zoom_truthy
    [WsMessage (batch_message [shark_a]); ZoomEnd (Num 4);
     WsMessage (batch_message [shark_a; shark_b])] = true ∧
  mapRef (run sample_StringToNumber sample_ObjectToNumber App_props
            [WsMessage (batch_message [shark_a]); ZoomEnd (Num 4);
             WsMessage (batch_message [shark_a; shark_b])]
            (mounted App_props)) = Some (Num 4).
Proof.
  assert (forallb zoom_truthy
            [WsMessage (batch_message [shark_a]); ZoomEnd (Num 4);
             WsMessage (batch_message [shark_a; shark_b])] = true) as Hevs.
  { unfold forallb, zoom_truthy. rewrite number_truthy_4. reflexivity. }
  split; [exact number_truthy_2|]. split; [exact Hevs|].
  apply (sizes_follow_zoom sample_StringToNumber sample_ObjectToNumber App_props
           _ number_truthy_2 Hevs).
Defined.

Lemma markers_beyond_message_untouched_witness :
  length (records (batch_message [shark_b])) ≤ 1 ∧
  sharkMarkersRef
    (fst (onmessage sample_StringToNumber sample_ObjectToNumber App_props
            (batch_message [shark_b]) one_marker)) !! 1 =
  sharkMarkersRef one_marker !! 1.
Proof.
  assert (length (records (batch_message [shark_b])) ≤ 1) as Hlen by (simpl; lia).
  split; [exact Hlen|].
  apply (markers_beyond_message_untouched sample_StringToNumber sample_ObjectToNumber
           App_props (batch_message [shark_b]) one_marker 1 Hlen).
Defined.

Lemma longer_batch_absorbs_earlier_witness :
  length [shark_a] ≤ length [shark_b; shark_a] ∧
  sharkMarkersRef
    (run sample_StringToNumber sample_ObjectToNumber App_props
       [WsMessage (batch_message [shark_a]); WsMessage (batch_message [shark_b; shark_a])]
       (mounted App_props)) =
  sharkMarkersRef
    (run sample_StringToNumber sample_ObjectToNumber App_props
       [WsMessage (batch_message [shark_b; shark_a])] (mounted App_props)).
Proof.
  assert (length [shark_a] ≤ length [shark_b; shark_a]) as Hlen by (simpl; lia).
  split; [exact Hlen|].
  apply (longer_batch_absorbs_earlier sample_StringToNumber sample_ObjectToNumber
           App_props [shark_a] [shark_b; shark_a] (mounted App_props) Hlen).
Defined.

Lemma record_without_rotation_is_applied_witness :
  destructure no_rotation = Ok (JNumber (Num 1), JNumber (Num 2), JUndefined) ∧
  snd (forEach_shark sample_StringToNumber sample_ObjectToNumber (Num 10)
         no_rotation 0 (mounted App_props)) = Ok tt.
Proof.
  split; [reflexivity|].
  apply (record_without_rotation_is_applied sample_StringToNumber sample_ObjectToNumber
           (Num 10) no_rotation 0 (mounted App_props) 1%R 2%R).
  reflexivity.
Defined.

Lemma App_markers_are_10_until_zoom_witness :
  forallb no_zoom [WsOpen; WsMessage (batch_message [shark_a; shark_b]); WsClose] = true ∧
  mapRef (run sample_StringToNumber sample_ObjectToNumber App_props
            [WsOpen; WsMessage (batch_message [shark_a; shark_b]); WsClose]
            (mounted App_props)) = Some (Num 2).
Proof.
  split; [reflexivity|].
  apply (App_markers_are_10_until_zoom sample_StringToNumber sample_ObjectToNumber
           [WsOpen; WsMessage (batch_message [shark_a; shark_b]); WsClose]).
  reflexivity.
Defined.


